(** * HiveHyde-Anti: a shallow embedding of the signing pipeline

    The development follows the four source modules of the client:

    - the Risk Matrix ([_calculateRiskScore], [_serializeGetParams],
      [_canonicalJsonStringify], [assessAndSign]);
    - the Data Loom ([_analyzeMouseTrajectory], [_getMouseTrajectory], the
      mouse listeners of [startListeners]);
    - the Session Vault ([_fetchNewSession], [_checkAndRefreshToken],
      [getCurrentKey], [getCurrentToken]);
    - the policy scheduler of the core engine ([_generateDynamicPolicy]).

    JavaScript numbers are IEEE 754 binary64 values, so they are modelled by
    Rocq's primitive floats: every arithmetic step of the source is the same
    operation on the same 64-bit value.  Strings are byte strings (ASCII
    text); objects are association lists kept in property enumeration
    order. *)

From Stdlib Require Import Floats ZArith List String Ascii Bool Lia DecimalString.
From Stdlib Require Import Permutation.
Import ListNotations.

#[local] Set Warnings "-inexact-float,-register-all".
#[local] Open Scope list_scope.
#[local] Open Scope string_scope.

(** ** JavaScript numbers *)

Module JSNum.

Definition two53 : Z := 9007199254740992%Z.

(** The number whose value is the positive integer [p]: for at most 53
    binary digits, the double whose mantissa is [p] shifted to 53 digits,
    with the matching exponent. *)
Definition of_pos (p : positive) : float :=
  let d := Zpos (digits2_pos p) in
  match (53 - d)%Z with
  | Zpos k => SF2Prim (S754_finite false (Pos.iter xO p k) (d - 53))
  | Z0 => SF2Prim (S754_finite false p 0)
  | Zneg _ => of_uint63 (Uint63.of_Z (Zpos p))
  end.

(** The number whose value is the integer [n], for [|n| <= 2^53]. *)
Definition of_Z (n : Z) : float :=
  match n with
  | Z0 => 0%float
  | Zpos p => of_pos p
  | Zneg p => (- of_pos p)%float
  end.

Definition of_nat (n : nat) : float := of_Z (Z.of_nat n).

(** [Math.max(a, b)]: NaN is contagious and [+0] is larger than [-0]. *)
Definition Math_max (a b : float) : float :=
  if is_nan a || is_nan b then nan
  else if (a <? b)%float then b
  else if (b <? a)%float then a
  else if get_sign a then b else a.

(** [Math.min(a, b)]: NaN is contagious and [-0] is smaller than [+0]. *)
Definition Math_min (a b : float) : float :=
  if is_nan a || is_nan b then nan
  else if (a <? b)%float then a
  else if (b <? a)%float then b
  else if get_sign a then a else b.

(** [floor(v + 1/2)] for the exact value [v = sm * 2^e] with [e < 0]. *)
Definition round_half_up (sm e : Z) : Z :=
  ((2 * sm + 2 ^ (- e)) / 2 ^ (1 - e))%Z.

(** [Math.round(x)]: the integer nearest to [x], ties towards +infinity;
    NaN, the infinities and integral values are returned unchanged, and a
    result of zero keeps the sign of [x]. *)
Definition Math_round (x : float) : float :=
  match Prim2SF x with
  | S754_finite s m e =>
      if (0 <=? e)%Z then x
      else
        let n := round_half_up (if s then Zneg m else Zpos m) e in
        if (n =? 0)%Z then (if s then neg_zero else 0%float) else of_Z n
  | _ => x
  end.

Definition Math_abs (x : float) : float := abs x.
Definition Math_sqrt (x : float) : float := sqrt x.

(** [Math.pow(x, 2)]: the correctly rounded square. *)
Definition Math_pow2 (x : float) : float := (x * x)%float.

(** The integer value of [x] when [x] is integral with [|x| <= 2^53]. *)
Definition to_small_int (x : float) : option Z :=
  match Prim2SF x with
  | S754_zero _ => Some 0%Z
  | S754_finite s m e =>
      let mag :=
        if (0 <=? e)%Z then Some (Zpos m * 2 ^ e)%Z
        else if (Zpos m mod 2 ^ (- e) =? 0)%Z then Some (Zpos m / 2 ^ (- e))%Z
        else None in
      match mag with
      | Some n => if (n <=? two53)%Z then Some (if s then (- n)%Z else n) else None
      | None => None
      end
  | _ => None
  end.

Definition Z_to_string (n : Z) : string :=
  match n with
  | Z0 => "0"
  | Zpos p => NilZero.string_of_uint (Pos.to_uint p)
  | Zneg p => "-" ++ NilZero.string_of_uint (Pos.to_uint p)
  end.

Section ToString.

(** The digit generation of [Number::toString] for finite values that are
    not integers of magnitude at most 2^53 (shortest round-trip digits,
    exponent notation) is the runtime's; it is kept abstract. *)
Variable shortest_digits : float -> string.

(** [String(x)] for a number [x]. *)
Definition Number_toString (x : float) : string :=
  if is_nan x then "NaN"
  else if is_infinity x then (if get_sign x then "-Infinity" else "Infinity")
  else match to_small_int x with
       | Some n => Z_to_string n
       | None => shortest_digits x
       end.

End ToString.

End JSNum.

(** ** JavaScript strings *)

Module JSStr.

(** [a.join(sep)] on an array of strings. *)
Definition join (sep : string) (l : list string) : string := String.concat sep l.

Definition upper_ascii (c : ascii) : ascii :=
  let n := nat_of_ascii c in
  if (97 <=? n)%nat && (n <=? 122)%nat then ascii_of_nat (n - 32) else c.

(** [s.toUpperCase()] on ASCII text. *)
Fixpoint toUpperCase (s : string) : string :=
  match s with
  | EmptyString => EmptyString
  | String c r => String (upper_ascii c) (toUpperCase r)
  end.

(** [s.substring(a, b)] for [a <= b]. *)
Definition substring (a b : nat) (s : string) : string :=
  String.substring a (b - a) s.

Definition hex_digit (n : nat) : ascii :=
  if (n <? 10)%nat then ascii_of_nat (48 + n) else ascii_of_nat (87 + n).

Definition HEX_digit (n : nat) : ascii :=
  if (n <? 10)%nat then ascii_of_nat (48 + n) else ascii_of_nat (55 + n).

(** One character of [QuoteJSONString]. *)
Definition json_escape_char (c : ascii) : string :=
  let n := nat_of_ascii c in
  if (n =? 34)%nat then "\" ++ String c EmptyString
  else if (n =? 92)%nat then "\\"
  else if (n =? 8)%nat then "\b"
  else if (n =? 12)%nat then "\f"
  else if (n =? 10)%nat then "\n"
  else if (n =? 13)%nat then "\r"
  else if (n =? 9)%nat then "\t"
  else if (n <? 32)%nat then
    "\u00" ++ String (hex_digit (n / 16)) (String (hex_digit (n mod 16)) EmptyString)
  else String c EmptyString.

Fixpoint json_escape (s : string) : string :=
  match s with
  | EmptyString => EmptyString
  | String c r => json_escape_char c ++ json_escape r
  end.

(** [JSON.stringify(s)] for a string [s]. *)
Definition json_quote (s : string) : string :=
  String (ascii_of_nat 34) (json_escape s ++ String (ascii_of_nat 34) EmptyString).

Definition uri_unreserved (c : ascii) : bool :=
  let n := nat_of_ascii c in
  ((65 <=? n) && (n <=? 90) || (97 <=? n) && (n <=? 122) || (48 <=? n) && (n <=? 57))%nat
  || existsb (Nat.eqb n) [45; 95; 46; 33; 126; 42; 39; 40; 41]%nat.

Definition uri_encode_char (c : ascii) : string :=
  if uri_unreserved c then String c EmptyString
  else
    let n := nat_of_ascii c in
    String "%"%char (String (HEX_digit (n / 16)) (String (HEX_digit (n mod 16)) EmptyString)).

(** [encodeURIComponent(s)] on the UTF-8 bytes of [s]. *)
Fixpoint encodeURIComponent (s : string) : string :=
  match s with
  | EmptyString => EmptyString
  | String c r => uri_encode_char c ++ encodeURIComponent r
  end.

Fixpoint insert_sorted (k : string) (l : list string) : list string :=
  match l with
  | [] => [k]
  | h :: t => if String.leb k h then k :: h :: t else h :: insert_sorted k t
  end.

(** [keys.sort()]: the default comparator orders strings by code unit and the
    sort is stable. *)
Definition sort (l : list string) : list string :=
  fold_right insert_sorted [] l.

End JSStr.

(** ** JavaScript values *)

Module JSVal.

Import JSNum JSStr.

(** The values request parameters and probe results are made of.  An object
    lists its own enumerable properties in enumeration order, an array its
    elements. *)
Inductive value : Type :=
| Undefined
| Null
| Bool (b : bool)
| Num (x : float)
| Str (s : string)
| Arr (items : list value)
| Obj (props : list (string * value)).

(** [!!v]. *)
Definition truthy (v : value) : bool :=
  match v with
  | Undefined | Null => false
  | Bool b => b
  | Num x => negb (is_nan x || is_zero x)
  | Str s => negb (String.eqb s "")
  | Arr _ | Obj _ => true
  end.

(** [typeof v === 'object'] (true of [null]). *)
Definition typeof_object (v : value) : bool :=
  match v with
  | Null | Arr _ | Obj _ => true
  | _ => false
  end.

Definition typeof_string (v : value) : bool :=
  match v with Str _ => true | _ => false end.

Fixpoint lookup (k : string) (props : list (string * value)) : value :=
  match props with
  | [] => Undefined
  | (k', v) :: rest => if String.eqb k k' then v else lookup k rest
  end.

Fixpoint index_keys (i n : nat) : list string :=
  match n with
  | O => []
  | S n' => Z_to_string (Z.of_nat i) :: index_keys (S i) n'
  end.

(** [Object.keys(v)] for a value that is neither [null] nor [undefined]:
    the indices of an array or string, the property names of an object. *)
Definition Object_keys (v : value) : list string :=
  match v with
  | Arr items => index_keys 0 (List.length items)
  | Str s => index_keys 0 (String.length s)
  | Obj props => map fst props
  | _ => []
  end.

Definition parse_index (k : string) : option nat :=
  match NilZero.uint_of_string k with
  | Some d => if String.eqb (NilZero.string_of_uint d) k then Some (Nat.of_uint d) else None
  | None => None
  end.

(** [v[k]] for an own key [k] of an object or an array. *)
Definition get (v : value) (k : string) : value :=
  match v with
  | Obj props => lookup k props
  | Arr items =>
      match parse_index k with
      | Some i => nth i items Undefined
      | None => Undefined
      end
  | _ => Undefined
  end.

(** [`${x}`] and string concatenation render [undefined] by its name. *)
Definition template (o : option string) : string :=
  match o with Some s => s | None => "undefined" end.

(** [a.join(sep)] renders an [undefined] element of [a] as the empty
    string. *)
Definition joined (o : option string) : string :=
  match o with Some s => s | None => EmptyString end.

Section Stringify.

Variable shortest_digits : float -> string.

(** [String(v)], as applied by [encodeURIComponent] and template literals. *)
Fixpoint ToString (v : value) : string :=
  match v with
  | Undefined => "undefined"
  | Null => "null"
  | Bool b => if b then "true" else "false"
  | Num x => Number_toString shortest_digits x
  | Str s => s
  | Arr items =>
      join "," (map (fun e => match e with
                              | Undefined | Null => ""
                              | _ => ToString e
                              end) items)
  | Obj _ => "[object Object]"
  end.

(** [JSON.stringify(v)]: [None] is the result [undefined].  A property whose
    value serializes to [undefined] is left out of an object and becomes
    [null] in an array; numbers that are not finite become [null]. *)
Fixpoint JSON_stringify (v : value) : option string :=
  match v with
  | Undefined => None
  | Null => Some "null"
  | Bool b => Some (if b then "true" else "false")
  | Num x => Some (if is_finite x then Number_toString shortest_digits x else "null")
  | Str s => Some (json_quote s)
  | Arr items =>
      Some ("[" ++ join "," (map (fun e => match JSON_stringify e with
                                           | Some s => s
                                           | None => "null"
                                           end) items) ++ "]")
  | Obj props =>
      Some ("{" ++ join ","
              ((fix members (ps : list (string * value)) : list string :=
                  match ps with
                  | [] => []
                  | (k, e) :: rest =>
                      match JSON_stringify e with
                      | Some s => (json_quote k ++ ":" ++ s) :: members rest
                      | None => members rest
                      end
                  end) props) ++ "}")
  end.

End Stringify.

End JSVal.

(** ** Probe results *)

Module Probes.

(** The error strings the collectors of the Data Loom return in lieu of
    throwing: [_getCanvasFingerprint], [_getWebGLFingerprint],
    [_getAudioFingerprint], [_getPlatformInfo], [_getScreenAndLangInfo] and
    [_getPerformanceInfo]. *)
Inductive sentinel : Type :=
| err_canvas
| err_no_webgl
| err_webgl
| err_no_offline_context
| err_audio_render
| err_audio_context
| err_platform
| err_screen
| err_no_perf_api
| err_no_timing
| err_perf.

Definition sentinel_name (e : sentinel) : string :=
  match e with
  | err_canvas => "err_canvas"
  | err_no_webgl => "err_no_webgl"
  | err_webgl => "err_webgl"
  | err_no_offline_context => "err_no_offline_context"
  | err_audio_render => "err_audio_render"
  | err_audio_context => "err_audio_context"
  | err_platform => "err_platform"
  | err_screen => "err_screen"
  | err_no_perf_api => "err_no_perf_api"
  | err_no_timing => "err_no_timing"
  | err_perf => "err_perf"
  end.

Definition all_sentinels : list sentinel :=
  [err_canvas; err_no_webgl; err_webgl; err_no_offline_context; err_audio_render;
   err_audio_context; err_platform; err_screen; err_no_perf_api; err_no_timing; err_perf].

(** A collector returns a well-formed value or a sentinel string. *)
Inductive probe (A : Type) : Type :=
| Sentinel (e : sentinel)
| Value (a : A).

Arguments Sentinel {A} e.
Arguments Value {A} a.

(** [_getPlatformInfo]. *)
Record platform_info : Type := {
  platform : string;
  plugins : string;
  touchPoints : float;
  clickCount : float
}.

(** [_getWebGLFingerprint]. *)
Record webgl_info : Type := {
  vendor : string;
  renderer : string
}.

(** [_getScreenAndLangInfo]. *)
Record screen_info : Type := {
  screen : string;
  language : string
}.

(** [_getPerformanceInfo]; [type] is the navigation type. *)
Record performance_info : Type := {
  type : string;
  transferSize : float;
  loadTime : float
}.

(** A trajectory sample [[x, y, t]]. *)
Record point : Type := {
  px : float;
  py : float;
  pt : float
}.

(** The result of [_analyzeMouseTrajectory]. *)
Record trajectory_analysis : Type := {
  regularity_score : float;
  is_straight_line : bool
}.

(** The result of [_getMouseTrajectory]. *)
Record trajectory_result : Type := {
  points : list point;
  analysis : trajectory_analysis
}.

(** The outcomes of [_detectStackAnomaly] other than [false]. *)
Inductive stack_finding : Type :=
| no_stack
| contains_keyword
| stack_too_short.

(** The object built by [AnomalyScan.run]; [stack_anomaly] is [None] for
    [false], [permissions_error] is present when the permission probe
    returned a string. *)
Record anomaly_result : Type := {
  webdriver : bool;
  webdriver_tampered : bool;
  headless_chrome : bool;
  tostring_tampered : bool;
  stack_anomaly : option stack_finding;
  permissions_denied : bool;
  permissions_error : option string
}.

(** The object [gather] resolves to: one property per collector that was
    run, in the order of [collectorMap]'s names in the policy.  [None] is an
    absent property. *)
Record collected : Type := {
  c_platform : option (probe platform_info);
  c_screen : option (probe screen_info);
  c_canvas : option (probe string);
  c_webgl : option (probe webgl_info);
  c_audio : option (probe string);
  c_performance : option (probe performance_info);
  c_mouse_trajectory : option trajectory_result;
  c_anomaly_scan : option anomaly_result
}.

(** The bag of a run in which no collector was scheduled. *)
Definition empty_bag : collected :=
  {| c_platform := None; c_screen := None; c_canvas := None; c_webgl := None;
     c_audio := None; c_performance := None; c_mouse_trajectory := None;
     c_anomaly_scan := None |}.

(** The string a string-valued collector resolved to. *)
Definition probe_string (p : probe string) : string :=
  match p with
  | Sentinel e => sentinel_name e
  | Value s => s
  end.

(** The string a record-valued collector resolved to, if it is a string. *)
Definition probe_error {A : Type} (p : probe A) : option string :=
  match p with
  | Sentinel e => Some (sentinel_name e)
  | Value _ => None
  end.

End Probes.

(** ** Data Loom: trajectory analysis and the mouse listeners *)

Module DataLoom.

Import JSNum Probes.

#[local] Open Scope float_scope.

(** [l.reduce((a, b) => a + b, 0)]. *)
Definition sum (l : list float) : float :=
  fold_left (fun a b => a + b) l 0.

(** [trajectory.slice(1).map((p, i) => p[2] - trajectory[i][2])]. *)
Definition intervals (trajectory : list point) : list float :=
  map (fun pq => pt (fst pq) - pt (snd pq)) (combine (tl trajectory) trajectory).

Definition avgInterval (trajectory : list point) : float :=
  sum (intervals trajectory) / of_nat (List.length (intervals trajectory)).

Definition stdDevInterval (trajectory : list point) : float :=
  Math_sqrt
    (sum (map (fun x => Math_pow2 (x - avgInterval trajectory)) (intervals trajectory))
     / of_nat (List.length (intervals trajectory))).

(** The two variables of the slope loop; [lastSlope] is [None] for [null]. *)
Record slope_state : Type := {
  consistentSlopes : nat;
  lastSlope : option float
}.

(** The slope of the segment from [prev] to [cur], [None] when the segment
    has no displacement (the [continue] of the loop). *)
Definition segment_slope (prev cur : point) : option float :=
  let dx := px cur - px prev in
  let dy := py cur - py prev in
  if (dx =? 0) && (dy =? 0) then None
  else Some (if dx =? 0 then infinity else dy / dx).

(** One iteration of the loop body, on the pair
    [(trajectory[i - 1], trajectory[i])]. *)
Definition slope_step (st : slope_state) (seg : point * point) : slope_state :=
  match segment_slope (fst seg) (snd seg) with
  | None => st
  | Some slope =>
      {| consistentSlopes :=
           match lastSlope st with
           | Some last =>
               if Math_abs (slope - last) <? 0.1
               then S (consistentSlopes st) else consistentSlopes st
           | None => consistentSlopes st
           end;
         lastSlope := Some slope |}
  end.

(** [for (let i = 1; i < trajectory.length; i++)]. *)
Definition slope_loop (trajectory : list point) : slope_state :=
  fold_left slope_step (combine trajectory (tl trajectory))
            {| consistentSlopes := 0; lastSlope := None |}.

Definition _analyzeMouseTrajectory (trajectory : list point) : trajectory_analysis :=
  if (List.length trajectory <? 10)%nat then
    {| regularity_score := 0; is_straight_line := false |}
  else
    let regularity_score := 0 in
    let regularity_score :=
      if stdDevInterval trajectory <? 10 then regularity_score + 0.8
      else regularity_score in
    let straight :=
      0.8 <? of_nat (consistentSlopes (slope_loop trajectory))
             / (of_nat (List.length trajectory) - 1) in
    let regularity_score :=
      if straight then regularity_score + 1.0 else regularity_score in
    {| regularity_score := Math_min regularity_score 1.0;
       is_straight_line := straight |}.

(** [lastMousePosition]: position, time stamp and click count. *)
Record mouse_position : Type := {
  x : float;
  y : float;
  t : float;
  c : float
}.

(** The module state of the Data Loom. *)
Record mouse_state : Type := {
  lastMousePosition : mouse_position;
  mouseTrajectory : list point
}.

Definition initial_mouse_state : mouse_state :=
  {| lastMousePosition := {| x := 0; y := 0; t := 0; c := 0 |};
     mouseTrajectory := [] |}.

(** A [mousemove] event with the three readings of [Date.now()] the handler
    takes: for the gate, for the position record and for the sample. *)
Record mousemove : Type := {
  clientX : float;
  clientY : float;
  now_gate : float;
  now_position : float;
  now_sample : float
}.

(** The gate of the handler: [Date.now() - lastMousePosition.t > 100]. *)
Definition gate_open (st : mouse_state) (e : mousemove) : bool :=
  100 <? now_gate e - t (lastMousePosition st).

Definition sample_of (e : mousemove) : point :=
  {| px := clientX e; py := clientY e; pt := now_sample e |}.

(** The [mousemove] listener of [startListeners]. *)
Definition on_mousemove (st : mouse_state) (e : mousemove) : mouse_state :=
  if gate_open st e then
    let pos := {| x := clientX e; y := clientY e; t := now_position e;
                  c := c (lastMousePosition st) |} in
    if (List.length (mouseTrajectory st) <? 50)%nat then
      {| lastMousePosition := pos;
         mouseTrajectory := (mouseTrajectory st ++ [sample_of e])%list |}
    else
      {| lastMousePosition := pos; mouseTrajectory := mouseTrajectory st |}
  else st.

(** The [click] listener: [lastMousePosition.c++]. *)
Definition on_click (st : mouse_state) : mouse_state :=
  let p := lastMousePosition st in
  {| lastMousePosition := {| x := x p; y := y p; t := t p; c := c p + 1 |};
     mouseTrajectory := mouseTrajectory st |}.

(** [_getMouseTrajectory]: copy the buffer, truncate it to length 0, analyse
    the copy. *)
Definition _getMouseTrajectory (st : mouse_state) : mouse_state * trajectory_result :=
  let capturedTrajectory := mouseTrajectory st in
  ({| lastMousePosition := lastMousePosition st; mouseTrajectory := [] |},
   {| points := capturedTrajectory;
      analysis := _analyzeMouseTrajectory capturedTrajectory |}).

(** What can happen to the mouse state once the listeners are started. *)
Inductive mouse_event : Type :=
| MouseMove (e : mousemove)
| Click
| TrajectoryProbe.

Definition mouse_step (st : mouse_state) (ev : mouse_event) : mouse_state :=
  match ev with
  | MouseMove e => on_mousemove st e
  | Click => on_click st
  | TrajectoryProbe => fst (_getMouseTrajectory st)
  end.

Definition mouse_run (evs : list mouse_event) : mouse_state :=
  fold_left mouse_step evs initial_mouse_state.

(** The states of the mouse-tracking system reachable from its initial one. *)
Inductive mouse_reachable : mouse_state -> Prop :=
| mouse_reach_init : mouse_reachable initial_mouse_state
| mouse_reach_step st ev :
    mouse_reachable st -> mouse_reachable (mouse_step st ev).

(** *** The analysis as the design describes it *)

(** The slope of a segment: none for a segment without displacement,
    +infinity for a vertical segment, [dy / dx] otherwise. *)
Definition slope_rule (seg : point * point) : option float :=
  let (p, q) := seg in
  match (px q - px p =? 0), (py q - py p =? 0) with
  | true, true => None
  | true, false => Some infinity
  | false, _ => Some ((py q - py p) / (px q - px p))
  end.

(** The slopes of the segments with a displacement, in order. *)
Fixpoint segment_slopes (segs : list (point * point)) : list float :=
  match segs with
  | [] => []
  | seg :: rest =>
      match slope_rule seg with
      | Some s => s :: segment_slopes rest
      | None => segment_slopes rest
      end
  end.

(** The number of adjacent pairs of a list of slopes whose absolute
    difference is below 0.1. *)
Fixpoint consistent_pairs (slopes : list float) : nat :=
  match slopes with
  | a :: ((b :: _) as rest) =>
      ((if (abs (b - a) <? 0.1)%float then 1 else 0) + consistent_pairs rest)%nat
  | _ => 0%nat
  end.

(** The numbers of a list added up from left to right, starting from
    [acc]. *)
Fixpoint total_from (acc : float) (l : list float) : float :=
  match l with
  | [] => acc
  | v :: rest => total_from (acc + v) rest
  end.

Definition mean (l : list float) : float :=
  total_from 0 l / of_nat (List.length l).

(** Population standard deviation of a list of numbers: the square root of
    the mean of the squared deviations from the mean. *)
Definition population_stddev (l : list float) : float :=
  sqrt (total_from 0 (map (fun v => (v - mean l) * (v - mean l)) l)
        / of_nat (List.length l)).

(** A displacement that is a finite number other than zero. *)
Definition displaced (d : float) : bool :=
  match Prim2SF d with
  | S754_finite _ _ _ => true
  | _ => false
  end.

(** The time between each sample and the one before it. *)
Fixpoint time_steps (trajectory : list point) : list float :=
  match trajectory with
  | p :: ((q :: _) as rest) => (pt q - pt p) :: time_steps rest
  | _ => []
  end.

(** Consecutive samples as segments. *)
Fixpoint segments (trajectory : list point) : list (point * point) :=
  match trajectory with
  | p :: ((q :: _) as rest) => (p, q) :: segments rest
  | _ => []
  end.

End DataLoom.

(** ** Risk Matrix: scoring, serialization and signing *)

Module RiskMatrix.

Import JSNum JSStr JSVal Probes.

(** The [weights] object of a policy: probe name to number. *)
Definition weight_map : Type := list (string * float).

Fixpoint weight (k : string) (w : weight_map) : option float :=
  match w with
  | [] => None
  | (k', v) :: rest => if String.eqb k k' then Some v else weight k rest
  end.

(** [w || d] for a property [w] that is a number or absent. *)
Definition or_default (w : option float) (d : float) : float :=
  match w with
  | Some v => if is_nan v || is_zero v then d else v
  | None => d
  end.

(** [l.includes(s)]. *)
Definition includes (l : list string) (s : string) : bool :=
  existsb (String.eqb s) l.

Definition fingerprintErrors : list string :=
  ["err_canvas"; "err_no_webgl"; "err_webgl"; "err_no_offline_context";
   "err_audio_render"; "err_audio_context"; "err_platform"; "err_screen";
   "err_no_perf"; "err_no_perf_api"; "err_no_timing"].

Definition present {A : Type} (k : string) (o : option A) (f : A -> option string)
  : list (string * option string) :=
  match o with
  | Some a => [(k, f a)]
  | None => []
  end.

(** The properties of the bag that [for (const key in collectedData)]
    enumerates, each with its value when that value is a string ([None] for
    an object, which no string equals). *)
Definition entries (d : collected) : list (string * option string) :=
  (present "platform" (c_platform d) probe_error
   ++ present "screen" (c_screen d) probe_error
   ++ present "canvas" (c_canvas d) (fun p => Some (probe_string p))
   ++ present "webgl" (c_webgl d) probe_error
   ++ present "audio" (c_audio d) (fun p => Some (probe_string p))
   ++ present "performance" (c_performance d) probe_error
   ++ present "mouse_trajectory" (c_mouse_trajectory d) (fun _ => None)
   ++ present "anomaly_scan" (c_anomaly_scan d) (fun _ => None))%list.

(** The loop that counts fingerprint errors. *)
Definition errorCount (collectedData : collected) : nat :=
  fold_left
    (fun n kv =>
       match snd kv with
       | Some s => if includes fingerprintErrors s then S n else n
       | None => n
       end)
    (entries collectedData) 0%nat.

(** [(collectedData.anomaly_scan || {}).f] read as a condition. *)
Definition anomaly_flag (f : anomaly_result -> bool) (d : collected) : bool :=
  match c_anomaly_scan d with
  | Some a => f a
  | None => false
  end.

(** A non-empty string is truthy, [false] is not. *)
Definition stack_flag (a : anomaly_result) : bool :=
  match stack_anomaly a with
  | Some _ => true
  | None => false
  end.

(** [collectedData.mouse_trajectory || { points: [], analysis: {} }]; the
    properties missing from [{}] read as [undefined], which is falsy and
    compares as NaN. *)
Definition trajectoryData (d : collected) : trajectory_result :=
  match c_mouse_trajectory d with
  | Some tr => tr
  | None => {| points := [];
               analysis := {| regularity_score := nan; is_straight_line := false |} |}
  end.

(** [platformData.touchPoints > 0] with
    [platformData = collectedData.platform || {}]; on a sentinel string or on
    [{}] the property is [undefined]. *)
Definition isTouchDevice (d : collected) : bool :=
  match c_platform d with
  | Some (Value p) => (0 <? touchPoints p)%float
  | _ => false
  end.

(** [platformData.clickCount || 0]. *)
Definition clickCount_of (d : collected) : float :=
  match c_platform d with
  | Some (Value p) => or_default (Some (clickCount p)) 0
  | _ => 0%float
  end.

(** [perfData && perfData.transferSize === 0 && perfData.type === 'navigate']. *)
Definition from_cache (d : collected) : bool :=
  match c_performance d with
  | Some (Value p) => (transferSize p =? 0)%float && String.eqb (type p) "navigate"
  | _ => false
  end.

Section Score.

#[local] Open Scope float_scope.

(** The value of [score] when [_calculateRiskScore] reaches its [return]. *)
Definition risk_sum (collectedData : collected) (weights : weight_map) : float :=
  let score := 0 in
  let anomalyWeight := or_default (weight "anomaly_scan" weights) 50 in
  let score :=
    if anomaly_flag webdriver collectedData then score + anomalyWeight else score in
  let score :=
    if anomaly_flag webdriver_tampered collectedData
    then score + anomalyWeight * 1.2 else score in
  let score :=
    if anomaly_flag tostring_tampered collectedData
    then score + anomalyWeight * 1.1 else score in
  let score :=
    if anomaly_flag stack_flag collectedData
    then score + anomalyWeight * 0.7 else score in
  let score :=
    if anomaly_flag permissions_denied collectedData then score + 5 else score in
  let trajectory := trajectoryData collectedData in
  let trajectoryWeight := or_default (weight "mouse_trajectory" weights) 25 in
  let npoints := List.length (points trajectory) in
  let score :=
    if (npoints =? 0)%nat then score + 3
    else if (npoints <? 5)%nat then score + 2
    else score in
  let score :=
    if is_straight_line (analysis trajectory) then
      let straightLineWeight := if isTouchDevice collectedData then 0.1 else 0.7 in
      score + trajectoryWeight * straightLineWeight
    else if 0.5 <? regularity_score (analysis trajectory) then
      score + trajectoryWeight * 0.5
    else score in
  let clickCount := clickCount_of collectedData in
  let score :=
    if clickCount =? 0 then score + 1
    else if (5 <? clickCount) && (20 <? npoints)%nat then score - 5
    else score in
  let score := if from_cache collectedData then score - 5 else score in
  let errorCount := errorCount collectedData in
  let score :=
    if (2 <? errorCount)%nat then score + of_nat errorCount * 2 else score in
  score.

(** [Math.min(Math.round(Math.max(0, score)), 100)]. *)
Definition clamp_score (score : float) : float :=
  Math_min (Math_round (Math_max 0 score)) 100.

Definition _calculateRiskScore (collectedData : collected) (weights : weight_map) : float :=
  clamp_score (risk_sum collectedData weights).

End Score.

(** [_serializeGetParams]. *)
Definition _serializeGetParams (shortest_digits : float -> string) (params : value)
  : string :=
  if negb (truthy params) || negb (typeof_object params)
     || (List.length (Object_keys params) =? 0)%nat
  then ""
  else
    join "&"
      (map (fun key =>
              encodeURIComponent key ++ "="
              ++ encodeURIComponent (ToString shortest_digits (get params key)))
           (sort (Object_keys params))).

Section Canonical.

Variable shortest_digits : float -> string.

Fixpoint lookup_rendered (k : string) (l : list (string * string)) : string :=
  match l with
  | [] => template None
  | (k', s) :: rest => if String.eqb k k' then s else lookup_rendered k rest
  end.

(** [_canonicalJsonStringify].  The elements of an array are rendered and
    then joined, so an element rendered as [undefined] leaves an empty slot;
    the members of an object go through a template literal, which writes
    [undefined] out.  The members are rendered property by property and then
    emitted in the order of the sorted keys, which is [obj[key]] rendered for
    each sorted [key]. *)
Fixpoint _canonicalJsonStringify (obj : value) : option string :=
  match obj with
  | Arr items =>
      Some ("[" ++ join "," (map (fun item => joined (_canonicalJsonStringify item)) items)
            ++ "]")
  | Obj props =>
      let rendered :=
        (fix render (ps : list (string * value)) : list (string * string) :=
           match ps with
           | [] => []
           | (k, e) :: rest => (k, template (_canonicalJsonStringify e)) :: render rest
           end) props in
      let sortedKeys := sort (map fst props) in
      let parts :=
        map (fun key => json_quote key ++ ":" ++ lookup_rendered key rendered) sortedKeys in
      Some ("{" ++ join "," parts ++ "}")
  | _ => JSON_stringify shortest_digits obj
  end.

End Canonical.

(** The outcome of a call that may throw. *)
Inductive result (A : Type) : Type :=
| Throw (message : string)
| Return (a : A).

Arguments Throw {A} message.
Arguments Return {A} a.

(** The object [assessAndSign] resolves to. *)
Record signature_package : Type := {
  signature : string;
  timestamp : float;
  nonce : string;
  riskScore : float;
  token : option string;
  fingerprintJsonForSign : string
}.

(** What one signing attempt reads from its surroundings: the key
    [getCurrentKey()] resolved to, the token [getCurrentToken()] returns,
    [Date.now()] and [Math.random().toString(36)]. *)
Record attempt : Type := {
  sessionKey : option string;
  sessionToken : option string;
  now : float;
  random36 : string
}.

Section Signing.

Variable shortest_digits : float -> string.

(** [CryptoJS.AES.encrypt(plaintext, Hex.parse(key), { iv: Hex.parse(iv),
    mode: CBC, padding: Pkcs7 }).toString()], from the hex strings. *)
Variable AES_CBC_Pkcs7 : string -> string -> string -> string.

(** [CryptoJS.HmacSHA256(data, Hex.parse(key)).toString(Hex)]. *)
Variable HmacSHA256 : string -> string -> string.

Definition _aesEncrypt (plaintext key : string) : string :=
  AES_CBC_Pkcs7 plaintext key (substring 0 32 key).

(** The method after [toUpperCase] and the parameters, serialized. *)
Definition serializedParams (httpMethod : string) (params : value) : string :=
  if String.eqb httpMethod "GET" then _serializeGetParams shortest_digits params
  else if includes ["POST"; "PUT"; "PATCH"; "DELETE"] httpMethod then
    if negb (truthy params) || (List.length (Object_keys params) =? 0)%nat
    then "{}"
    else match JSON_stringify shortest_digits params with
         | Some s => s
         | None => ""
         end
  else "".

(** [collectedData.platform ? collectedData.platform.platform : 'N/A'].  A
    sentinel string is truthy and has no [platform] property. *)
Definition fingerprint_platform (d : collected) : value :=
  match c_platform d with
  | Some (Value p) => Str (platform p)
  | Some (Sentinel _) => Undefined
  | None => Str "N/A"
  end.

(** [collectedData.webgl ? collectedData.webgl.renderer : 'N/A']. *)
Definition fingerprint_renderer (d : collected) : value :=
  match c_webgl d with
  | Some (Value g) => Str (renderer g)
  | Some (Sentinel _) => Undefined
  | None => Str "N/A"
  end.

(** [collectedData.audio]. *)
Definition fingerprint_audio (d : collected) : value :=
  match c_audio d with
  | Some p => Str (probe_string p)
  | None => Undefined
  end.

Definition rawFingerprintJson (d : collected) : string :=
  match JSON_stringify shortest_digits
          (Obj [("platform", fingerprint_platform d);
                ("renderer", fingerprint_renderer d);
                ("audio", fingerprint_audio d)]) with
  | Some s => s
  | None => ""
  end.

(** [`${timestamp}-${Math.random().toString(36).substring(2, 10)}`]. *)
Definition make_nonce (timestamp : float) (random36 : string) : string :=
  Number_toString shortest_digits timestamp ++ "-" ++ substring 2 10 random36.

(** The array joined with the delimiter. *)
Definition dataToSign (timestamp : float) (nonce httpMethod realUrl params : string)
           (riskScore : float) (fingerprint : string) : string :=
  join "||"
    [Number_toString shortest_digits timestamp; nonce; httpMethod; realUrl; params;
     Number_toString shortest_digits riskScore; fingerprint].

(** The string handed to [HmacSHA256] by a signing attempt. *)
Definition signed_record (env : attempt) (collectedData : collected)
           (weights : weight_map) (realUrl : string) (params : value) (method : string)
  : string :=
  let httpMethod := toUpperCase method in
  dataToSign (now env) (make_nonce (now env) (random36 env)) httpMethod realUrl
             (serializedParams httpMethod params)
             (_calculateRiskScore collectedData weights)
             (rawFingerprintJson collectedData).

Definition assessAndSign (env : attempt) (collectedData : collected)
           (weights : weight_map) (realUrl : string) (params : value) (method : string)
  : result signature_package :=
  match sessionKey env with
  | None => Throw "Could not retrieve session key. Vault might be uninitialized or failed."
  | Some key =>
      if String.eqb key "" then
        Throw "Could not retrieve session key. Vault might be uninitialized or failed."
      else
        let riskScore := _calculateRiskScore collectedData weights in
        let timestamp := now env in
        let nonce := make_nonce timestamp (random36 env) in
        let httpMethod := toUpperCase method in
        let serialized := serializedParams httpMethod params in
        let fingerprint := rawFingerprintJson collectedData in
        let encryptedFingerprint := _aesEncrypt fingerprint key in
        let data :=
          dataToSign timestamp nonce httpMethod realUrl serialized riskScore fingerprint in
        Return {| signature := HmacSHA256 data key;
                  timestamp := timestamp;
                  nonce := nonce;
                  riskScore := riskScore;
                  token := sessionToken env;
                  fingerprintJsonForSign := encryptedFingerprint |}
  end.

End Signing.

End RiskMatrix.

(** ** Session Vault *)

Module SessionVault.

Import JSVal.

#[local] Open Scope float_scope.

Definition KEY_LIFESPAN_MS : float := 30 * 60 * 1000.
Definition REFRESH_BUFFER_MS : float := 2 * 60 * 1000.

(** The module state: [sessionKey], [sessionToken], [expiresAt] and the lock
    [isRefreshing]. *)
Record vault : Type := {
  sessionKey : option string;
  sessionToken : option string;
  expiresAt : float;
  isRefreshing : bool
}.

Definition uninitialized : vault :=
  {| sessionKey := None; sessionToken := None; expiresAt := 0; isRefreshing := false |}.

(** What [response.json()] settles to. *)
Inductive json_outcome : Type :=
| JsonRejected
| JsonResolved (responseData : value).

(** What [fetch(fullApiUrl, ...)] settles to: a rejection, or a response with
    its [ok] flag and its body. *)
Inductive fetch_outcome : Type :=
| FetchRejected
| FetchResolved (ok : bool) (body : json_outcome).

(** [responseData.code !== 0 || !responseData.data ||
    typeof responseData.data.key !== 'string' ||
    typeof responseData.data.token !== 'string'] is false; reading a property
    of [null] throws, which the [catch] treats like a failed check. *)
Definition session_of (responseData : value) : option (string * string) :=
  match responseData with
  | Null | Undefined => None
  | _ =>
      match get responseData "code" with
      | Num code =>
          if code =? 0 then
            let data := get responseData "data" in
            if truthy data then
              match get data "key", get data "token" with
              | Str key, Str token => Some (key, token)
              | _, _ => None
              end
            else None
          else None
      | _ => None
      end
  end.

(** The assignments after a successful check, with [Date.now()] read as [now]. *)
Definition store_session (v : vault) (key token : string) (now : float) : vault :=
  {| sessionKey := Some key; sessionToken := Some token;
     expiresAt := now + KEY_LIFESPAN_MS; isRefreshing := isRefreshing v |}.

(** The [catch] block of [_fetchNewSession]. *)
Definition clear_session (v : vault) : vault :=
  {| sessionKey := None; sessionToken := None; expiresAt := 0;
     isRefreshing := isRefreshing v |}.

Definition set_lock (v : vault) (b : bool) : vault :=
  {| sessionKey := sessionKey v; sessionToken := sessionToken v;
     expiresAt := expiresAt v; isRefreshing := b |}.

(** [!sessionKey]. *)
Definition key_missing (v : vault) : bool :=
  match sessionKey v with
  | Some k => String.eqb k ""
  | None => true
  end.

(** The early return of [_checkAndRefreshToken]. *)
Definition no_refresh_needed (v : vault) (now : float) : bool :=
  key_missing v || (now <? expiresAt v - REFRESH_BUFFER_MS) || isRefreshing v.

(** [!HiveHyde.config || !HiveHyde.config.apiBaseUrl]. *)
Definition config_missing (apiBaseUrl : option string) : bool :=
  match apiBaseUrl with
  | Some u => String.eqb u ""
  | None => true
  end.

(** Where a call of [getCurrentKey] stands between two turns of the event
    loop. *)
Inductive call_phase : Type :=
| Fetching
| Parsing (body : json_outcome)
| Settled
| Resuming
| Resolved (key : option string).

(** The vault together with the calls of [getCurrentKey] made so far and the
    number of requests sent to the init endpoint. *)
Record system : Type := {
  state : vault;
  calls : list call_phase;
  fetches : nat
}.

(** The turns of the event loop that touch the vault. *)
Inductive event : Type :=
| Call (now : float)
| FetchSettles (i : nat) (r : fetch_outcome)
| JsonSettles (i : nat) (now : float)
| Resume (i : nat)
| Resolve (i : nat).

Fixpoint set_nth {A : Type} (i : nat) (a : A) (l : list A) : list A :=
  match l, i with
  | [], _ => []
  | _ :: t, O => a :: t
  | h :: t, S i' => h :: set_nth i' a t
  end.

Definition move (s : system) (i : nat) (v : vault) (p : call_phase) : system :=
  {| state := v; calls := set_nth i p (calls s); fetches := fetches s |}.

Section Steps.

(** [HiveHyde.config.apiBaseUrl], fixed by the engine's [initialize]. *)
Variable apiBaseUrl : option string.

(** One turn.
    - [Call now]: [getCurrentKey] runs [_checkAndRefreshToken] up to its first
      suspension: either the early return, or the lock is taken and
      [_fetchNewSession] runs up to [await fetch(...)] (it throws before any
      request when the configuration is missing).
    - [FetchSettles i r]: the request of call [i] settles; a rejection or a
      response that is not [ok] runs the [catch] block.
    - [JsonSettles i now]: the body of call [i] is parsed and checked.
    - [Resume i]: [_checkAndRefreshToken] resumes after
      [await _fetchNewSession()] and runs its [finally] block.
    - [Resolve i]: [getCurrentKey] resumes and returns [sessionKey]. *)
Definition step (s : system) (ev : event) : option system :=
  match ev with
  | Call now =>
      if no_refresh_needed (state s) now then
        Some {| state := state s; calls := (calls s ++ [Resuming])%list;
                fetches := fetches s |}
      else if config_missing apiBaseUrl then
        Some {| state := set_lock (state s) true; calls := (calls s ++ [Settled])%list;
                fetches := fetches s |}
      else
        Some {| state := set_lock (state s) true; calls := (calls s ++ [Fetching])%list;
                fetches := S (fetches s) |}
  | FetchSettles i r =>
      match nth_error (calls s) i with
      | Some Fetching =>
          match r with
          | FetchResolved true body => Some (move s i (state s) (Parsing body))
          | _ => Some (move s i (clear_session (state s)) Settled)
          end
      | _ => None
      end
  | JsonSettles i now =>
      match nth_error (calls s) i with
      | Some (Parsing (JsonResolved responseData)) =>
          match session_of responseData with
          | Some (key, token) => Some (move s i (store_session (state s) key token now) Settled)
          | None => Some (move s i (clear_session (state s)) Settled)
          end
      | Some (Parsing JsonRejected) => Some (move s i (clear_session (state s)) Settled)
      | _ => None
      end
  | Resume i =>
      match nth_error (calls s) i with
      | Some Settled => Some (move s i (set_lock (state s) false) Resuming)
      | _ => None
      end
  | Resolve i =>
      match nth_error (calls s) i with
      | Some Resuming => Some (move s i (state s) (Resolved (sessionKey (state s))))
      | _ => None
      end
  end.

Fixpoint exec (s : system) (evs : list event) : option system :=
  match evs with
  | [] => Some s
  | ev :: rest =>
      match step s ev with
      | Some s' => exec s' rest
      | None => None
      end
  end.

End Steps.

(** A vault with no call of [getCurrentKey] under way. *)
Definition idle (v : vault) : system :=
  {| state := v; calls := []; fetches := 0 |}.

(** A call holds the lock from the turn that takes it to its [finally]. *)
Definition refreshing (p : call_phase) : bool :=
  match p with
  | Fetching | Parsing _ | Settled => true
  | _ => false
  end.

(** A call has a request to the init endpoint in flight. *)
Definition fetch_in_flight (p : call_phase) : bool :=
  match p with
  | Fetching => true
  | _ => false
  end.

Definition count (f : call_phase -> bool) (l : list call_phase) : nat :=
  List.length (filter f l).

(** The lock is held exactly while one call is between taking it and its
    [finally] block. *)
Definition lock_consistent (s : system) : Prop :=
  count refreshing (calls s) = (if isRefreshing (state s) then 1 else 0)%nat.

(** [getCurrentToken]. *)
Definition getCurrentToken (v : vault) : option string := sessionToken v.

(** The turns that take call [i] from phase [p] to the end of its refresh
    attempt, when its request settles to [r] and its body is checked at time
    [parsed_at]. *)
Definition remaining_turns (i : nat) (p : call_phase) (r : fetch_outcome)
           (parsed_at : float) : list event :=
  match p with
  | Fetching =>
      FetchSettles i r
      :: match r with
         | FetchResolved true _ => [JsonSettles i parsed_at; Resume i]
         | _ => [Resume i]
         end
  | Parsing _ => [JsonSettles i parsed_at; Resume i]
  | Settled => [Resume i]
  | _ => []
  end.

End SessionVault.

(** ** Core engine: the policy scheduler *)

Module CoreEngine.

Import RiskMatrix.

Record capabilities : Type := {
  hasScreen : bool;
  hasNavigator : bool;
  hasCanvas : bool;
  hasOfflineAudioContext : bool;
  hasWebGL : bool;
  hasPerformance : bool;
  hasDeviceMotion : bool;
  isIOS : bool
}.

Record policy : Type := {
  collectors : list string;
  weights : weight_map
}.

Definition push (p : policy) (names : list string) : policy :=
  {| collectors := (collectors p ++ names)%list; weights := weights p |}.

Definition set_weight (p : policy) (k : string) (w : float) : policy :=
  {| collectors := collectors p; weights := (weights p ++ [(k, w)])%list |}.

(** [_generateDynamicPolicy], from the capability snapshot. *)
Definition _generateDynamicPolicy (caps : capabilities) : policy :=
  let p := {| collectors := []; weights := [] |} in
  let p := push p ["platform"; "screen"; "language"; "plugins"] in
  let p := set_weight p "plugins" 5 in
  let p := if hasCanvas caps then set_weight (push p ["canvas"]) "canvas" 15 else p in
  let p := if hasWebGL caps then set_weight (push p ["webgl"]) "webgl" 15 else p in
  let p :=
    if hasOfflineAudioContext caps && negb (isIOS caps)
    then set_weight (push p ["audio"]) "audio" 20 else p in
  let p :=
    if hasPerformance caps then set_weight (push p ["performance"]) "performance" 5
    else p in
  let p := set_weight (push p ["mouse_trajectory"]) "mouse_trajectory" 25 in
  let p := set_weight (push p ["anomaly_scan"]) "anomaly_scan" 50 in
  p.

End CoreEngine.

(** * Concrete inputs *)

Import JSNum JSStr JSVal Probes.

(** [quoted s] is [s] with every apostrophe read as a double quote, so that
    JSON text can be written down legibly. *)
Fixpoint quoted (s : string) : string :=
  match s with
  | EmptyString => EmptyString
  | String c r =>
      String (if Ascii.eqb c "'"%char then ascii_of_nat 34 else c) (quoted r)
  end.

Module SigningExamples.

Import RiskMatrix.

(** A bag of a run that scheduled only the audio and performance collectors:
    audio is unavailable and the page came from the cache. *)
Definition ping_bag : collected :=
  {| c_platform := None; c_screen := None; c_canvas := None; c_webgl := None;
     c_audio := Some (Sentinel err_no_offline_context);
     c_performance :=
       Some (Value {| type := "navigate"; transferSize := 0; loadTime := 12.5 |});
     c_mouse_trajectory := None; c_anomaly_scan := None |}.

Definition ping_attempt : attempt :=
  {| sessionKey := Some "00112233445566778899aabbccddeeff00112233445566778899aabbccddeeff";
     sessionToken := Some "tok-1";
     now := 1700000000000;
     random36 := "0.abcd1234xyz" |}.

Definition ping_record : string :=
  quoted "1700000000000||1700000000000-abcd1234||GET||/api/ping||||0||{'platform':'N/A','renderer':'N/A','audio':'err_no_offline_context'}".

(** The parameters [{b: 2, a: 1}] and the same object built in the other
    order. *)
Definition params_ba : value := Obj [("b", Num 2); ("a", Num 1)].
Definition params_ab : value := Obj [("a", Num 1); ("b", Num 2)].

(** Stand-ins for the runtime's digit generation and for the two CryptoJS
    primitives, used where a closed term is needed. *)
Definition no_digits (x : float) : string := "".
Definition aes_tag (plaintext key iv : string) : string := "aes:" ++ plaintext.
Definition hmac_tag (data key : string) : string := "hmac:" ++ data.

End SigningExamples.


Module ScoringExamples.

Import RiskMatrix CoreEngine.

(** A browser in which every capability was detected. *)
Definition full_capabilities : capabilities :=
  {| hasScreen := true; hasNavigator := true; hasCanvas := true;
     hasOfflineAudioContext := true; hasWebGL := true; hasPerformance := true;
     hasDeviceMotion := false; isIOS := false |}.

Definition full_weights : weight_map := weights (_generateDynamicPolicy full_capabilities).

Definition quiet_scan : anomaly_result :=
  {| webdriver := false; webdriver_tampered := false; headless_chrome := false;
     tostring_tampered := false; stack_anomaly := None; permissions_denied := false;
     permissions_error := None |}.

Definition desktop : platform_info :=
  {| platform := "Linux x86_64"; plugins := "PDF Viewer"; touchPoints := 0;
     clickCount := 3 |}.

Definition six_points : list point :=
  map (fun i => {| px := 10 * of_nat i; py := 7 * of_nat i;
                   pt := 1700000000000 + 130 * of_nat i |}%float)
      (seq 0 6).

Definition short_walk : trajectory_result :=
  {| points := six_points;
     analysis := {| regularity_score := 0; is_straight_line := false |} |}.

(** A run in which the canvas, WebGL and performance collectors each caught
    an exception. *)
Definition three_failures : collected :=
  {| c_platform := Some (Value desktop);
     c_screen := Some (Value {| screen := "1920x1080x24"; language := "en-US" |});
     c_canvas := Some (Sentinel err_canvas);
     c_webgl := Some (Sentinel err_webgl);
     c_audio := Some (Value "35.73833402246237");
     c_performance := Some (Sentinel err_perf);
     c_mouse_trajectory := Some short_walk;
     c_anomaly_scan := Some quiet_scan |}.

(** A run in which the platform and WebGL collectors returned their
    sentinels. *)
Definition no_platform_no_webgl : collected :=
  {| c_platform := Some (Sentinel err_platform);
     c_screen := Some (Value {| screen := "1920x1080x24"; language := "en-US" |});
     c_canvas := Some (Value "data:image/png;base64,iVBORw0KGgo=");
     c_webgl := Some (Sentinel err_no_webgl);
     c_audio := Some (Value "35.73833402246237");
     c_performance := None;
     c_mouse_trajectory := Some short_walk;
     c_anomaly_scan := Some quiet_scan |}.

(** A run in which every collector returned a value. *)
Definition healthy : collected :=
  {| c_platform := Some (Value desktop);
     c_screen := Some (Value {| screen := "1920x1080x24"; language := "en-US" |});
     c_canvas := Some (Value "data:image/png;base64,iVBORw0KGgo=");
     c_webgl := Some (Value {| vendor := "Google Inc."; renderer := "ANGLE (Intel)" |});
     c_audio := Some (Value "35.73833402246237");
     c_performance :=
       Some (Value {| type := "reload"; transferSize := 5120; loadTime := 812.5 |});
     c_mouse_trajectory := Some short_walk;
     c_anomaly_scan := Some quiet_scan |}.

(** An automated browser moving the pointer along a straight line. *)
Definition driven : collected :=
  {| c_platform := None; c_screen := None; c_canvas := None; c_webgl := None;
     c_audio := None; c_performance := None;
     c_mouse_trajectory :=
       Some {| points := [];
               analysis := {| regularity_score := 1; is_straight_line := true |} |};
     c_anomaly_scan :=
       Some {| webdriver := true; webdriver_tampered := false; headless_chrome := true;
               tostring_tampered := false; stack_anomaly := None;
               permissions_denied := false; permissions_error := None |} |}.


(** The bag [d] with the [headless_chrome] field of its anomaly scan set to
    [b]. *)
Definition with_headless_chrome (b : bool) (d : collected) : collected :=
  {| c_platform := c_platform d; c_screen := c_screen d; c_canvas := c_canvas d;
     c_webgl := c_webgl d; c_audio := c_audio d; c_performance := c_performance d;
     c_mouse_trajectory := c_mouse_trajectory d;
     c_anomaly_scan :=
       match c_anomaly_scan d with
       | Some a =>
           Some {| webdriver := webdriver a; webdriver_tampered := webdriver_tampered a;
                   headless_chrome := b; tostring_tampered := tostring_tampered a;
                   stack_anomaly := stack_anomaly a;
                   permissions_denied := permissions_denied a;
                   permissions_error := permissions_error a |}
       | None => None
       end |}.

End ScoringExamples.

(** * The design's wording, for comparison with the code *)

Module Design.

Import RiskMatrix.

(** The closed set of sentinel error strings of the data model. *)
Definition closed_sentinel_set : list string := map sentinel_name all_sentinels.

(** The number of probe results of a bag that equal a sentinel of the closed
    set. *)
Definition sentinel_count (d : collected) : nat :=
  List.length
    (filter (fun kv => match snd kv with
                       | Some s => includes closed_sentinel_set s
                       | None => false
                       end)
            (entries d)).


End Design.

Module VaultExamples.

Import SessionVault.

#[local] Open Scope float_scope.

Definition api : option string := Some "https://api.example.test".

(** A session acquired at 1700000000000. *)
Definition fresh : vault :=
  {| sessionKey := Some "00112233445566778899aabbccddeeff00112233445566778899aabbccddeeff";
     sessionToken := Some "tok-1";
     expiresAt := 1700000000000 + KEY_LIFESPAN_MS;
     isRefreshing := false |}.

(** One minute before expiry: inside the refresh window. *)
Definition in_window : float := 1700000000000 + 29 * 60 * 1000.

(** Ten minutes after acquisition: outside the refresh window. *)
Definition early : float := 1700000000000 + 10 * 60 * 1000.

(** A well-formed envelope. *)
Definition good_envelope : value :=
  Obj [("code", Num 0);
       ("data", Obj [("key", Str "ffeeddccbbaa99887766554433221100ffeeddccbbaa99887766554433221100");
                     ("token", Str "tok-2")]);
       ("msg", Str "ok")].

(** An envelope that reports an error. *)
Definition bad_envelope : value :=
  Obj [("code", Num 50001); ("msg", Str "rate limited")].

End VaultExamples.

Module MouseExamples.

Import DataLoom.

#[local] Open Scope float_scope.

(** A pointer event at [(px, py)] handled at time [now]. *)
Definition move_at (px py now : float) : mousemove :=
  {| clientX := px; clientY := py; now_gate := now; now_position := now;
     now_sample := now |}.

Definition first_move : mousemove := move_at 10 10 1700000000000.

(** Exactly 100 ms after [first_move]. *)
Definition second_move : mousemove := move_at 20 20 1700000000100.

(** 101 ms after [first_move]. *)
Definition later_move : mousemove := move_at 20 20 1700000000101.

(** Twenty samples on the line [y = x], one every 100 ms. *)
Definition diagonal : list point :=
  map (fun i => {| px := of_nat i; py := of_nat i;
                   pt := 1700000000000 + 100 * of_nat i |})
      (seq 0 20).

(** Nine of those samples. *)
Definition short_diagonal : list point := firstn 9 diagonal.

End MouseExamples.

(** ** Laws of the serializers, for comparison with the code *)

Module Laws.

(** [shuffle v w]: [w] is [v] with the properties of its objects, at any
    depth, listed in another order.  Property names are distinct within an
    object. *)
Inductive shuffle : value -> value -> Prop :=
| shuffle_same v : shuffle v v
| shuffle_array items items' :
    Forall2 shuffle items items' -> shuffle (Arr items) (Arr items')
| shuffle_object props moved props' :
    NoDup (map fst props) ->
    Permutation props moved ->
    Forall2 (fun p q => fst p = fst q /\ shuffle (snd p) (snd q)) moved props' ->
    shuffle (Obj props) (Obj props').

(** The number of occurrences of a character in a string. *)
Fixpoint occurrences (c : ascii) (s : string) : nat :=
  match s with
  | EmptyString => 0
  | String a r => (if Ascii.eqb a c then 1 else 0) + occurrences c r
  end.

(** The text of an object from its keys, in the order given, and its rendered
    members. *)
Definition object_text (keys : list string) (rendered : list (string * string)) : string :=
  "{" ++ join "," (map (fun key => json_quote key ++ ":" ++ RiskMatrix.lookup_rendered key rendered) keys)
  ++ "}".

Definition rendered_props (digits : float -> string) (ps : list (string * value))
  : list (string * string) :=
  map (fun kv => (fst kv, template (RiskMatrix._canonicalJsonStringify digits (snd kv)))) ps.

End Laws.

Module TrajectoryLaws.

Import DataLoom.

(** Every segment of the trajectory keeps the same abscissa. *)
Definition vertical (trajectory : list point) : Prop :=
  Forall (fun seg => (px (snd seg) - px (fst seg) =? 0)%float = true)
         (segments trajectory).

(** Each sample of the buffer was taken more than 100 ms after the one
    before it. *)
Fixpoint spaced (buffer : list point) : Prop :=
  match buffer with
  | p :: ((q :: _) as rest) => (100 <? pt q - pt p)%float = true /\ spaced rest
  | _ => True
  end.

(** The handler read the same clock value three times. *)
Definition one_reading (e : mousemove) : Prop :=
  now_position e = now_gate e /\ now_sample e = now_gate e.

(** The states reachable when every pointer event is handled within one
    tick of the clock. *)
Inductive steadily_reachable : mouse_state -> Prop :=
| steady_init : steadily_reachable initial_mouse_state
| steady_move st e :
    steadily_reachable st -> one_reading e -> steadily_reachable (on_mousemove st e)
| steady_click st : steadily_reachable st -> steadily_reachable (on_click st)
| steady_probe st :
    steadily_reachable st -> steadily_reachable (fst (_getMouseTrajectory st)).

End TrajectoryLaws.

(** ** Session Vault: the first fetch *)

Module VaultInit.

Import SessionVault.

(** [_fetchNewSession] run from its call to its end with nothing else
    touching the vault in between: whether it returned ([true]) or threw, and
    the vault it leaves.  The check of the configuration throws before the
    [try] block, so it leaves the vault as it is. *)
Definition _fetchNewSession (apiBaseUrl : option string) (r : fetch_outcome)
           (checked_at : float) (v : vault) : vault * bool :=
  if config_missing apiBaseUrl then (v, false)
  else
    match r with
    | FetchResolved true (JsonResolved responseData) =>
        match session_of responseData with
        | Some (key, token) => (store_session v key token checked_at, true)
        | None => (clear_session v, false)
        end
    | _ => (clear_session v, false)
    end.

(** [SessionVault.initialize]. *)
Definition initialize := _fetchNewSession.









(** The session fields agree: a key comes with a token and an expiry, and
    no key comes with no token and expiry 0. *)
Definition coherent (v : vault) : Prop :=
  match sessionKey v, sessionToken v with
  | Some _, Some _ => exists started, expiresAt v = (started + KEY_LIFESPAN_MS)%float
  | None, None => expiresAt v = 0%float
  | _, _ => False
  end.

End VaultInit.

(** ** Data Loom: gathering *)

Module Gather.

Import DataLoom.

(** What the collectors find in the browser during one run.
    [navigator_info] is [navigator.platform], the plugin names joined by
    commas and [navigator.maxTouchPoints || 0], or [None] when reading them
    throws. *)
Record browser : Type := {
  canvas_result : probe string;
  webgl_result : probe webgl_info;
  audio_result : probe string;
  navigator_info : option (string * string * float);
  screen_result : probe screen_info;
  performance_result : probe performance_info;
  anomaly_scan_result : anomaly_result
}.

(** [_getPlatformInfo]: the click count is read from [lastMousePosition]. *)
Definition _getPlatformInfo (b : browser) (st : mouse_state) : probe platform_info :=
  match navigator_info b with
  | Some (name, plugin_names, touch) =>
      Value {| platform := name; plugins := plugin_names; touchPoints := touch;
               clickCount := c (lastMousePosition st) |}
  | None => Sentinel err_platform
  end.

Definition set_platform (d : collected) (r : probe platform_info) : collected :=
  {| c_platform := Some r; c_screen := c_screen d; c_canvas := c_canvas d;
     c_webgl := c_webgl d; c_audio := c_audio d; c_performance := c_performance d;
     c_mouse_trajectory := c_mouse_trajectory d; c_anomaly_scan := c_anomaly_scan d |}.

Definition set_screen (d : collected) (r : probe screen_info) : collected :=
  {| c_platform := c_platform d; c_screen := Some r; c_canvas := c_canvas d;
     c_webgl := c_webgl d; c_audio := c_audio d; c_performance := c_performance d;
     c_mouse_trajectory := c_mouse_trajectory d; c_anomaly_scan := c_anomaly_scan d |}.

Definition set_canvas (d : collected) (r : probe string) : collected :=
  {| c_platform := c_platform d; c_screen := c_screen d; c_canvas := Some r;
     c_webgl := c_webgl d; c_audio := c_audio d; c_performance := c_performance d;
     c_mouse_trajectory := c_mouse_trajectory d; c_anomaly_scan := c_anomaly_scan d |}.

Definition set_webgl (d : collected) (r : probe webgl_info) : collected :=
  {| c_platform := c_platform d; c_screen := c_screen d; c_canvas := c_canvas d;
     c_webgl := Some r; c_audio := c_audio d; c_performance := c_performance d;
     c_mouse_trajectory := c_mouse_trajectory d; c_anomaly_scan := c_anomaly_scan d |}.

Definition set_audio (d : collected) (r : probe string) : collected :=
  {| c_platform := c_platform d; c_screen := c_screen d; c_canvas := c_canvas d;
     c_webgl := c_webgl d; c_audio := Some r; c_performance := c_performance d;
     c_mouse_trajectory := c_mouse_trajectory d; c_anomaly_scan := c_anomaly_scan d |}.

Definition set_performance (d : collected) (r : probe performance_info) : collected :=
  {| c_platform := c_platform d; c_screen := c_screen d; c_canvas := c_canvas d;
     c_webgl := c_webgl d; c_audio := c_audio d; c_performance := Some r;
     c_mouse_trajectory := c_mouse_trajectory d; c_anomaly_scan := c_anomaly_scan d |}.

Definition set_mouse_trajectory (d : collected) (r : trajectory_result) : collected :=
  {| c_platform := c_platform d; c_screen := c_screen d; c_canvas := c_canvas d;
     c_webgl := c_webgl d; c_audio := c_audio d; c_performance := c_performance d;
     c_mouse_trajectory := Some r; c_anomaly_scan := c_anomaly_scan d |}.

Definition set_anomaly_scan (d : collected) (r : anomaly_result) : collected :=
  {| c_platform := c_platform d; c_screen := c_screen d; c_canvas := c_canvas d;
     c_webgl := c_webgl d; c_audio := c_audio d; c_performance := c_performance d;
     c_mouse_trajectory := c_mouse_trajectory d; c_anomaly_scan := Some r |}.

(** The names an object literal such as [collectorMap] inherits from
    [Object.prototype]: [collectorMap[key]] is truthy for them although the
    literal has no such entry. *)
Definition inherited (key : string) : bool :=
  RiskMatrix.includes ["constructor"; "hasOwnProperty"; "isPrototypeOf";
                       "propertyIsEnumerable"; "toLocaleString"; "toString"; "valueOf";
                       "__proto__"; "__defineGetter__"; "__defineSetter__";
                       "__lookupGetter__"; "__lookupSetter__"] key.

(** A name for which [collectorMap[key]] is the entry of the literal, or
    [undefined]. *)
Definition plain (key : string) : bool := negb (inherited key).

(** One iteration of the loop over [collectorsToRun], for a [plain] name: a
    name of [collectorMap] calls its collector, whose result ends up under
    that name in [results]; any other name is skipped.  The collectors run in
    the order of the list; only the trajectory collector changes the module
    state. *)
Definition collect (b : browser) (acc : mouse_state * collected) (key : string)
  : mouse_state * collected :=
  let (st, results) := acc in
  if String.eqb key "canvas" then (st, set_canvas results (canvas_result b))
  else if String.eqb key "webgl" then (st, set_webgl results (webgl_result b))
  else if String.eqb key "audio" then (st, set_audio results (audio_result b))
  else if String.eqb key "platform" then (st, set_platform results (_getPlatformInfo b st))
  else if String.eqb key "screen" then (st, set_screen results (screen_result b))
  else if String.eqb key "performance" then
    (st, set_performance results (performance_result b))
  else if String.eqb key "mouse_trajectory" then
    let (st', r) := _getMouseTrajectory st in (st', set_mouse_trajectory results r)
  else if String.eqb key "anomaly_scan" then
    (st, set_anomaly_scan results (anomaly_scan_result b))
  else acc.

(** [gather], for a list of [plain] names: the module state after the
    collectors ran, and [results]. *)
Definition gather (b : browser) (collectorsToRun : list string) (st : mouse_state)
  : mouse_state * collected :=
  fold_left (collect b) collectorsToRun (st, empty_bag).

(** The names [collectorMap] has an entry for. *)
Definition known_collector (key : string) : bool :=
  RiskMatrix.includes ["canvas"; "webgl"; "audio"; "platform"; "screen"; "performance";
            "mouse_trajectory"; "anomaly_scan"] key.

End Gather.

(** ** Core engine: [initialize] and [processRequest] *)

Module Engine.

Import RiskMatrix CoreEngine SessionVault VaultInit Gather DataLoom.

(** The state of the core engine: [isInitialized], [currentPolicy] and
    [HiveHyde.config.apiBaseUrl] ([None] until [HiveHyde.config] is set). *)
Record engine : Type := {
  isInitialized : bool;
  currentPolicy : option policy;
  apiBaseUrl : option string
}.

Definition fresh_engine : engine :=
  {| isInitialized := false; currentPolicy := None; apiBaseUrl := None |}.

Definition is_space (ch : ascii) : bool :=
  existsb (Nat.eqb (nat_of_ascii ch)) [9; 10; 11; 12; 13; 32]%nat.

(** [s.trim() === ''] on ASCII text: every character is white space. *)
Fixpoint blank (s : string) : bool :=
  match s with
  | EmptyString => true
  | String ch r => is_space ch && blank r
  end.

(** The [apiBaseUrl] of a configuration object that passes the check of
    [initialize]. *)
Definition configured_url (userConfig : value) : option string :=
  if truthy userConfig then
    match get userConfig "apiBaseUrl" with
    | Str u => if blank u then None else Some u
    | _ => None
    end
  else None.

(** [initialize(userConfig)], with the capability snapshot the scheduler
    takes and what the request of the vault settles to: the engine, the
    vault and the outcome.  Of the error a failed session fetch throws, the
    fixed prefix of the message is kept. *)
Definition initialize (e : engine) (v : vault) (userConfig : value)
           (caps : capabilities) (r : fetch_outcome) (checked_at : float)
  : engine * vault * result bool :=
  if isInitialized e then (e, v, Return true)
  else
    match configured_url userConfig with
    | None =>
        (e, v, Throw "[HiveHyde] FATAL: `apiBaseUrl` (string) must be provided in the configuration object during initialization.")
    | Some u =>
        let p := _generateDynamicPolicy caps in
        let (v', ok) := VaultInit.initialize (Some u) r checked_at v in
        if ok then
          ({| isInitialized := true; currentPolicy := Some p; apiBaseUrl := Some u |},
           v', Return true)
        else
          ({| isInitialized := false; currentPolicy := Some p; apiBaseUrl := Some u |},
           v', Throw "[HiveHyde] Session fetching failed")
    end.


Section Process.

Variable shortest_digits : float -> string.
Variable AES_CBC_Pkcs7 : string -> string -> string -> string.
Variable HmacSHA256 : string -> string -> string.


End Process.

End Engine.

(** ** Anomaly Scanner *)

Module AnomalyScan.

Definition lower_ascii (ch : ascii) : ascii :=
  let n := nat_of_ascii ch in
  if (65 <=? n)%nat && (n <=? 90)%nat then ascii_of_nat (n + 32) else ch.

(** [s.toLowerCase()] on ASCII text. *)
Fixpoint toLowerCase (s : string) : string :=
  match s with
  | EmptyString => EmptyString
  | String ch r => String (lower_ascii ch) (toLowerCase r)
  end.

(** [s.includes(word)]. *)
Fixpoint contains (word s : string) : bool :=
  String.prefix word s
  || match s with
     | EmptyString => false
     | String _ r => contains word r
     end.

(** [s.split('\n').length]: one more than the number of line feeds. *)
Fixpoint lines (s : string) : nat :=
  match s with
  | EmptyString => 1
  | String ch r => (if Ascii.eqb ch (ascii_of_nat 10) then 1 else 0) + lines r
  end.

(** [_detectStackAnomaly], from the [stack] of the error it throws ([None]
    when the property is missing or not a string); [None] is the result
    [false]. *)
Definition _detectStackAnomaly (stack : option string) : option stack_finding :=
  match stack with
  | None => Some no_stack
  | Some text =>
      if String.eqb text "" then Some no_stack
      else
        let lowered := toLowerCase text in
        if contains "puppeteer" lowered || contains "webdriver" lowered
           || contains "phantom" lowered
        then Some contains_keyword
        else if (lines text <? 3)%nat then Some stack_too_short
        else None
  end.

(** What [_detectPermissions] resolves to. *)
Inductive permission_result : Type :=
| PermissionFlag (denied : bool)
| PermissionText (text : string).

(** [_detectPermissions], from whether the permissions API is there, whether
    querying it throws, the state it reports and [Notification.permission]
    ([None] when [Notification] is not in [window]). *)
Definition _detectPermissions (has_api query_throws : bool) (state : string)
           (notification : option string) : permission_result :=
  if negb has_api then PermissionText "no_permissions_api"
  else if query_throws then PermissionText "permissions_error"
  else PermissionFlag
         (String.eqb state "denied"
          && match notification with
             | Some permission => String.eqb permission "denied"
             | None => false
             end).

(** [run], from the results of the five synchronous detectors and of the
    permission probe. *)
Definition run (driver tampered headless hooked : bool) (stack : option string)
           (permission : permission_result) : anomaly_result :=
  {| webdriver := driver;
     webdriver_tampered := tampered;
     headless_chrome := headless;
     tostring_tampered := hooked;
     stack_anomaly := _detectStackAnomaly stack;
     permissions_denied :=
       match permission with
       | PermissionFlag denied => denied
       | PermissionText _ => false
       end;
     permissions_error :=
       match permission with
       | PermissionFlag _ => None
       | PermissionText text => Some text
       end |}.

End AnomalyScan.

(** ** Data Loom: the performance collector *)

Module Performance.

(** A navigation entry of [performance.getEntriesByType('navigation')]. *)
Record navigation_entry : Type := {
  entry_type : string;
  entry_transferSize : float;
  entry_duration : float
}.

(** What [_getPerformanceInfo] finds: whether [window.performance] has
    [getEntriesByType], the navigation entries, the legacy
    [performance.timing] as [(loadEventEnd, navigationStart)], and whether
    reading any of it throws. *)
Record performance_api : Type := {
  has_entries_api : bool;
  navigation_entries : list navigation_entry;
  timing : option (float * float);
  reading_throws : bool
}.

(** [_getPerformanceInfo]. *)
Definition _getPerformanceInfo (api : performance_api) : probe performance_info :=
  if reading_throws api then Sentinel err_perf
  else if negb (has_entries_api api) then Sentinel err_no_perf_api
  else
    match navigation_entries api with
    | [] =>
        match timing api with
        | None => Sentinel err_no_timing
        | Some (loadEventEnd, navigationStart) =>
            Value {| type := "legacy"; transferSize := (-1)%float;
                     loadTime := (loadEventEnd - navigationStart)%float |}
        end
    | nav :: _ =>
        Value {| type := entry_type nav; transferSize := entry_transferSize nav;
                 loadTime := entry_duration nav |}
    end.

End Performance.

Module Presorted.

(** The names are in strictly ascending order. *)
Fixpoint ascending (names : list string) : bool :=
  match names with
  | a :: ((b :: _) as rest) => String.ltb a b && ascending rest
  | _ => true
  end.

Definition is_undefined (v : value) : bool :=
  match v with Undefined => true | _ => false end.

(** Every object of [v], at any depth, lists its properties in strictly
    ascending order of their names, and no array element or property value is
    [undefined]. *)
Fixpoint presorted (v : value) : bool :=
  match v with
  | Arr items => forallb (fun e => negb (is_undefined e) && presorted e) items
  | Obj props =>
      ascending (map fst props)
      && (fix all (ps : list (string * value)) : bool :=
            match ps with
            | [] => true
            | (_, e) :: rest => negb (is_undefined e) && presorted e && all rest
            end) props
  | _ => true
  end.

(** The number of [Click] events of a list. *)
Fixpoint clicks (evs : list DataLoom.mouse_event) : nat :=
  match evs with
  | [] => 0
  | DataLoom.Click :: rest => S (clicks rest)
  | _ :: rest => clicks rest
  end.

End Presorted.

Module CoverageExamples.

Import Performance Gather Laws.

(** A browser without navigation entries, which loaded the page in 900 ms. *)
Definition legacy_api : performance_api :=
  {| has_entries_api := true; navigation_entries := [];
     timing := Some (1700000000900, 1700000000000)%float;
     reading_throws := false |}.

Definition legacy_bag : collected :=
  {| c_platform := None; c_screen := None; c_canvas := None; c_webgl := None;
     c_audio := None; c_performance := Some (_getPerformanceInfo legacy_api);
     c_mouse_trajectory := None; c_anomaly_scan := None |}.

(** A browser in which every collector returns a value. *)
Definition healthy_browser : browser :=
  {| canvas_result := Value "data:image/png;base64,iVBORw0KGgo=";
     webgl_result := Value {| vendor := "Google Inc."; renderer := "ANGLE (Intel)" |};
     audio_result := Value "35.73833402246237";
     navigator_info := Some ("Win32", "PDF Viewer", 0%float);
     screen_result := Value {| screen := "1920x1080x24"; language := "en-US" |};
     performance_result :=
       Value {| type := "reload"; transferSize := 5120; loadTime := 812.5 |};
     anomaly_scan_result := ScoringExamples.quiet_scan |}.

(** Two pointer moves 101 ms apart, then a click. *)
Definition two_moves_and_a_click : list DataLoom.mouse_event :=
  [DataLoom.MouseMove MouseExamples.first_move;
   DataLoom.MouseMove MouseExamples.later_move; DataLoom.Click].

(** The parameters [{b: [{z: null, y: 'q'}], a: 1}] and a deep shuffle of
    them. *)
Definition nested_params : value :=
  Obj [("b", Arr [Obj [("z", Null); ("y", Str "q")]]); ("a", Num 1)].

Definition nested_params_shuffled : value :=
  Obj [("a", Num 1); ("b", Arr [Obj [("y", Str "q"); ("z", Null)]])].

End CoverageExamples.
(** * Properties *)

(** ** The signing record *)

Import RiskMatrix SigningExamples.

Lemma join_seven (sep a b c d e f g : string) :
  join sep [a; b; c; d; e; f; g]
  = a ++ sep ++ b ++ sep ++ c ++ sep ++ d ++ sep ++ e ++ sep ++ f ++ sep ++ g.
Proof. reflexivity. Qed.

(** C1. With a session key that is neither [null] nor empty, a signing
    attempt succeeds and the string it signs is the seven components
    timestamp, nonce, upper-cased method, path, serialized parameters, risk
    score and raw fingerprint JSON, in that order, separated by [||].  For the
    empty GET of the scenario the serialized parameters are the empty string
    and the record is the expected one, both component-wise and through the
    whole pipeline. *)
Theorem signed_record_grammar
        (digits : float -> string)
        (aes : string -> string -> string -> string)
        (hmac : string -> string -> string)
        (env : attempt) (d : collected) (w : weight_map)
        (realUrl : string) (params : value) (method key : string)
        (Hkey : sessionKey env = Some key) (Hnonempty : key <> "") :
  (exists pkg,
      assessAndSign digits aes hmac env d w realUrl params method = Return pkg
      /\ signature pkg
         = hmac (Number_toString digits (timestamp pkg) ++ "||"
                 ++ nonce pkg ++ "||"
                 ++ toUpperCase method ++ "||"
                 ++ realUrl ++ "||"
                 ++ serializedParams digits (toUpperCase method) params ++ "||"
                 ++ Number_toString digits (riskScore pkg) ++ "||"
                 ++ rawFingerprintJson digits d) key
      /\ timestamp pkg = now env
      /\ nonce pkg = Number_toString digits (now env) ++ "-" ++ substring 2 10 (random36 env)
      /\ riskScore pkg = _calculateRiskScore d w)
  /\ serializedParams digits "GET" (Obj []) = ""
  /\ dataToSign digits 1700000000000 "1700000000000-abcd1234" "GET" "/api/ping" "" 0
                (quoted "{'platform':'N/A','renderer':'N/A','audio':'err_no_offline_context'}")
     = ping_record
  /\ signed_record digits ping_attempt ping_bag [] "/api/ping" (Obj []) "get" = ping_record.
Proof.
  split; [| split; [reflexivity | split; reflexivity]].
  unfold assessAndSign. rewrite Hkey.
  destruct (String.eqb_spec key "") as [E | _]; [contradiction |].
  eexists. split; [reflexivity |].
  cbn [signature timestamp nonce riskScore].
  unfold dataToSign. rewrite join_seven.
  repeat split; reflexivity.
Qed.

Lemma signed_record_grammar_witness :
  exists pkg,
    assessAndSign no_digits aes_tag hmac_tag ping_attempt ping_bag [] "/api/ping" (Obj []) "GET"
    = Return pkg
    /\ signature pkg = "hmac:" ++ ping_record.
Proof.
  destruct (signed_record_grammar no_digits aes_tag hmac_tag ping_attempt ping_bag []
              "/api/ping" (Obj []) "GET" _ eq_refl
              ltac:(discriminate)) as [[pkg [Hret [Hsig _]]] _].
  exists pkg. split; [exact Hret |].
  rewrite Hsig.
  injection Hret as <-. reflexivity.
Defined.

(** ** Body parameters *)

(** C2. For POST, PUT, PATCH and DELETE, absent or empty parameters serialize
    to the two characters [{}].  Parameters with keys are serialized by
    [JSON.stringify] in the enumeration order of the object, not in sorted
    order: for [{b: 2, a: 1}] the signed text keeps [b] before [a], differs
    from the sorted text that [_canonicalJsonStringify] produces, and changes
    when the same object is built in the other order. *)
Theorem body_params_follow_insertion_order (digits : float -> string) :
  Forall (fun m =>
            serializedParams digits m (Obj []) = "{}"
            /\ serializedParams digits m Undefined = "{}"
            /\ serializedParams digits m Null = "{}"
            /\ serializedParams digits m params_ba = quoted "{'b':2,'a':1}")
         ["POST"; "PUT"; "PATCH"; "DELETE"]
  /\ _canonicalJsonStringify digits params_ba = Some (quoted "{'a':1,'b':2}")
  /\ _canonicalJsonStringify digits params_ab = Some (quoted "{'a':1,'b':2}")
  /\ serializedParams digits "POST" params_ba <> quoted "{'a':1,'b':2}"
  /\ serializedParams digits "POST" params_ba <> serializedParams digits "POST" params_ab.
Proof.
  split.
  - repeat constructor.
  - repeat split; try reflexivity; discriminate.
Qed.

(** ** The raw fingerprint JSON *)

Import ScoringExamples Design.

(** C4. When the platform and WebGL collectors return their sentinel
    strings, the raw fingerprint JSON has neither a [platform] nor a
    [renderer] member: the sentinel is truthy, so the fallback to [N/A] is
    not taken, and the property read from the string is [undefined], which
    [JSON.stringify] leaves out.  The fallback applies only when the
    collector did not run, and a collector that returned a value contributes
    its field; the text that is encrypted is the text that is signed. *)
Theorem raw_fingerprint_drops_sentinel_fields (digits : float -> string) :
  rawFingerprintJson digits no_platform_no_webgl = quoted "{'audio':'35.73833402246237'}"
  /\ rawFingerprintJson digits no_platform_no_webgl
     <> quoted "{'platform':'N/A','renderer':'N/A','audio':'35.73833402246237'}"
  /\ rawFingerprintJson digits healthy
     = quoted "{'platform':'Linux x86_64','renderer':'ANGLE (Intel)','audio':'35.73833402246237'}"
  /\ rawFingerprintJson digits ping_bag
     = quoted "{'platform':'N/A','renderer':'N/A','audio':'err_no_offline_context'}"
  /\ forall aes hmac env d w realUrl params method pkg,
       assessAndSign digits aes hmac env d w realUrl params method = Return pkg ->
       exists key,
         sessionKey env = Some key
         /\ fingerprintJsonForSign pkg
            = aes (rawFingerprintJson digits d) key (substring 0 32 key)
         /\ signature pkg = hmac (signed_record digits env d w realUrl params method) key.
Proof.
  repeat split; try reflexivity; try discriminate.
  intros aes hmac env d w realUrl params method pkg.
  unfold assessAndSign.
  destruct (sessionKey env) as [key |]; [| discriminate].
  destruct (String.eqb key ""); [discriminate |].
  intros [= <-]. exists key. repeat split; reflexivity.
Qed.

(** ** The fingerprint-error term *)

(** C6. The list the scorer matches against holds [err_no_perf], which no
    collector returns, and lacks [err_perf], which the performance collector
    returns: every sentinel of the closed set is matched except [err_perf].
    In a run with the three failures [err_canvas], [err_webgl] and [err_perf]
    the scorer counts two errors where the closed set has three, so the
    term [2 * count] is not added and the score is 0. *)
Theorem fingerprint_errors_miss_err_perf :
  (forall e : sentinel,
      includes fingerprintErrors (sentinel_name e) = true <-> e <> err_perf)
  /\ includes fingerprintErrors "err_no_perf" = true
  /\ includes closed_sentinel_set "err_no_perf" = false
  /\ includes closed_sentinel_set "err_perf" = true
  /\ sentinel_count three_failures = 3
  /\ errorCount three_failures = 2
  /\ risk_sum three_failures full_weights = 0%float
  /\ _calculateRiskScore three_failures full_weights = 0%float.
Proof.
  split.
  - intros e; split.
    + intros H ->. discriminate H.
    + intros H. destruct e; try reflexivity. contradiction H. reflexivity.
  - repeat split; reflexivity.
Qed.

(** ** The headless-Chrome signal *)

(** C10. Two bags that differ only in the [headless_chrome] field of the
    anomaly scan get the same accumulated sum and the same risk score,
    whatever the weights: the scorer never reads that field. *)
Theorem headless_chrome_not_scored (d : collected) (w : weight_map) (b : bool) :
  risk_sum (with_headless_chrome b d) w = risk_sum d w
  /\ _calculateRiskScore (with_headless_chrome b d) w = _calculateRiskScore d w.
Proof.
  assert (H : risk_sum (with_headless_chrome b d) w = risk_sum d w).
  { destruct d as [p s c g a f m [sc |]]; reflexivity. }
  split; [exact H |].
  unfold _calculateRiskScore. rewrite H. reflexivity.
Qed.

(** ** The session vault *)

Import SessionVault VaultExamples.

(** C3. A silent refresh that fails does not throw: the call of
    [getCurrentKey] resolves.  But the [catch] block of [_fetchNewSession]
    has cleared the session by then, so the call resolves to [null] and
    [getCurrentToken] returns [null], whether the request was rejected, the
    status was not 2xx or the envelope was malformed; and since the key is
    gone, the next call does not start another refresh. *)
Theorem failed_refresh_clears_session :
  Forall (fun turns =>
            exec api (idle fresh) turns
            = Some {| state := uninitialized; calls := [Resolved None]; fetches := 1 |})
         [ [Call in_window; FetchSettles 0 FetchRejected; Resume 0; Resolve 0];
           [Call in_window; FetchSettles 0 (FetchResolved false JsonRejected);
            Resume 0; Resolve 0];
           [Call in_window; FetchSettles 0 (FetchResolved true (JsonResolved bad_envelope));
            JsonSettles 0 in_window; Resume 0; Resolve 0];
           [Call in_window; FetchSettles 0 (FetchResolved true JsonRejected);
            JsonSettles 0 in_window; Resume 0; Resolve 0] ]
  /\ getCurrentToken uninitialized = None
  /\ getCurrentToken fresh = Some "tok-1"
  /\ exec api (idle fresh)
          [Call in_window; FetchSettles 0 FetchRejected; Resume 0; Resolve 0;
           Call in_window; Resolve 1]
     = Some {| state := uninitialized; calls := [Resolved None; Resolved None];
               fetches := 1 |}.
Proof.
  split; [repeat constructor | repeat split; reflexivity].
Qed.

Lemma count_app (f : call_phase -> bool) (l : list call_phase) (p : call_phase) :
  count f (l ++ [p])%list = count f l + (if f p then 1 else 0).
Proof.
  unfold count. rewrite filter_app, length_app. simpl.
  destruct (f p); simpl; lia.
Qed.

Lemma count_set_nth (f : call_phase -> bool) (p old : call_phase) :
  forall (l : list call_phase) (i : nat),
    nth_error l i = Some old ->
    count f (set_nth i p l) + (if f old then 1 else 0)
    = count f l + (if f p then 1 else 0).
Proof.
  unfold count.
  induction l as [| h t IH]; intros [| i] H; simpl in *; try discriminate.
  - injection H as ->. destruct (f p), (f old); simpl; lia.
  - specialize (IH i H). destruct (f h); simpl; lia.
Qed.

Lemma nth_error_set_nth (p old : call_phase) :
  forall (l : list call_phase) (i : nat),
    nth_error l i = Some old -> nth_error (set_nth i p l) i = Some p.
Proof.
  induction l as [| h t IH]; intros [| i] H; simpl in *; try discriminate; auto.
Qed.

Lemma in_flight_le_refreshing (l : list call_phase) :
  count fetch_in_flight l <= count refreshing l.
Proof.
  unfold count. induction l as [| [] t IH]; simpl; lia.
Qed.

Lemma step_keeps_lock (url : option string) (s s' : system) (ev : event) :
  lock_consistent s -> step url s ev = Some s' -> lock_consistent s'.
Proof.
  unfold lock_consistent. intros Inv Hstep.
  destruct ev as [now | i r | i now | i | i]; simpl in Hstep.
  - destruct (no_refresh_needed (state s) now) eqn:G.
    + injection Hstep as <-. simpl. rewrite count_app. simpl. lia.
    + unfold no_refresh_needed in G.
      apply orb_false_iff in G as [_ L]. rewrite L in Inv.
      destruct (config_missing url); injection Hstep as <-; simpl;
        rewrite count_app; simpl; lia.
  - destruct (nth_error (calls s) i) as [[] |] eqn:N; try discriminate.
    pose proof (count_set_nth refreshing) as C.
    destruct r as [| [] body]; injection Hstep as <-; simpl;
      [ specialize (C Settled _ _ _ N) | specialize (C (Parsing body) _ _ _ N)
      | specialize (C Settled _ _ _ N) ];
      simpl in C; lia.
  - destruct (nth_error (calls s) i) as [[| body | | |] |] eqn:N; try discriminate.
    pose proof (count_set_nth refreshing Settled _ _ _ N) as C. simpl in C.
    destruct body as [| responseData].
    + injection Hstep as <-. simpl. lia.
    + destruct (session_of responseData) as [[key token] |];
        injection Hstep as <-; simpl; lia.
  - destruct (nth_error (calls s) i) as [[] |] eqn:N; try discriminate.
    pose proof (count_set_nth refreshing Resuming _ _ _ N) as C. simpl in C.
    injection Hstep as <-. simpl.
    destruct (isRefreshing (state s)); lia.
  - destruct (nth_error (calls s) i) as [[] |] eqn:N; try discriminate.
    pose proof (count_set_nth refreshing (Resolved (sessionKey (state s))) _ _ _ N) as C.
    simpl in C. injection Hstep as <-. simpl. lia.
Qed.

Lemma exec_keeps_lock (url : option string) (evs : list event) :
  forall s s', lock_consistent s -> exec url s evs = Some s' -> lock_consistent s'.
Proof.
  induction evs as [| ev rest IH]; intros s s' Inv H; simpl in H.
  - injection H as <-. exact Inv.
  - destruct (step url s ev) as [s1 |] eqn:S1; [| discriminate].
    eapply IH; [| exact H]. eapply step_keeps_lock; eauto.
Qed.

Lemma release_step (url : option string) (s s' : system) (ev : event) :
  lock_consistent s -> step url s ev = Some s' ->
  count refreshing (calls s') < count refreshing (calls s) ->
  isRefreshing (state s') = false.
Proof.
  intros Inv Hstep Hlt.
  pose proof (step_keeps_lock _ _ _ _ Inv Hstep) as Inv'.
  unfold lock_consistent in *.
  destruct (isRefreshing (state s')); [| reflexivity].
  destruct (isRefreshing (state s)); lia.
Qed.

Lemma attempt_finishes (url : option string) (s : system) (i : nat) (p : call_phase)
      (r : fetch_outcome) (parsed_at : float) :
  nth_error (calls s) i = Some p -> refreshing p = true ->
  exists s', exec url s (remaining_turns i p r parsed_at) = Some s'
             /\ isRefreshing (state s') = false
             /\ nth_error (calls s') i = Some Resuming.
Proof.
  intros N R.
  assert (Last : forall s1, nth_error (calls s1) i = Some Settled ->
            exists s', exec url s1 [Resume i] = Some s'
                       /\ isRefreshing (state s') = false
                       /\ nth_error (calls s') i = Some Resuming).
  { intros s1 N1. simpl. rewrite N1. eexists. split; [reflexivity |]. simpl.
    split; [reflexivity |]. eapply nth_error_set_nth; eauto. }
  assert (Parse : forall s1 body, nth_error (calls s1) i = Some (Parsing body) ->
            exists s', exec url s1 [JsonSettles i parsed_at; Resume i] = Some s'
                       /\ isRefreshing (state s') = false
                       /\ nth_error (calls s') i = Some Resuming).
  { intros s1 body N1.
    assert (exists s2, step url s1 (JsonSettles i parsed_at) = Some s2
                       /\ nth_error (calls s2) i = Some Settled) as [s2 [S2 N2]].
    { simpl. rewrite N1.
      destruct body as [| responseData];
        [| destruct (session_of responseData) as [[key token] |]];
        eexists; (split; [reflexivity | simpl; eapply nth_error_set_nth; eauto]). }
    destruct (Last s2 N2) as [s' [E H]].
    exists s'. split; [| exact H].
    change (exec url s1 [JsonSettles i parsed_at; Resume i])
      with (match step url s1 (JsonSettles i parsed_at) with
            | Some s3 => exec url s3 [Resume i]
            | None => None
            end).
    rewrite S2. exact E. }
  destruct p as [| body | | |]; try discriminate R.
  - assert (Hset : forall q, nth_error (calls (move s i (state s) q)) i = Some q
                             /\ nth_error (calls (move s i (clear_session (state s)) q)) i
                                = Some q).
    { intros q. simpl. split; eapply nth_error_set_nth; eauto. }
    unfold remaining_turns.
    destruct r as [| [] body].
    + destruct (Last (move s i (clear_session (state s)) Settled)) as [s' [E H]];
        [apply Hset |].
      exists s'. split; [| exact H].
      cbn [exec step]. rewrite N. exact E.
    + destruct (Parse (move s i (state s) (Parsing body)) body) as [s' [E H]];
        [apply Hset |].
      exists s'. split; [| exact H].
      cbn [exec step]. rewrite N. exact E.
    + destruct (Last (move s i (clear_session (state s)) Settled)) as [s' [E H]];
        [apply Hset |].
      exists s'. split; [| exact H].
      cbn [exec step]. rewrite N. exact E.
  - exact (Parse s body N).
  - exact (Last s N).
Qed.

(** C5. Starting from a vault whose lock is free, after any sequence of
    turns of any number of [getCurrentKey] calls: at most one request to the
    init endpoint is in flight; the lock is held exactly while one call is
    between taking it and its [finally] block; a turn that ends a refresh
    attempt leaves the lock free; and every attempt under way runs to its end
    with the lock free, whatever its request settles to.  Ten calls inside
    the refresh window send one request. *)
Theorem single_refresh_in_flight
        (url : option string) (v : vault) (evs : list event) (s : system)
        (Hfree : isRefreshing v = false)
        (Hrun : exec url (idle v) evs = Some s) :
  count fetch_in_flight (calls s) <= 1
  /\ count refreshing (calls s) = (if isRefreshing (state s) then 1 else 0)
  /\ (forall ev s',
         step url s ev = Some s' ->
         count refreshing (calls s') < count refreshing (calls s) ->
         isRefreshing (state s') = false)
  /\ (forall i p r parsed_at,
         nth_error (calls s) i = Some p -> refreshing p = true ->
         exists s', exec url s (remaining_turns i p r parsed_at) = Some s'
                    /\ isRefreshing (state s') = false
                    /\ nth_error (calls s') i = Some Resuming)
  /\ (exists s10,
         exec api (idle fresh) (repeat (Call in_window) 10) = Some s10
         /\ fetches s10 = 1
         /\ count fetch_in_flight (calls s10) = 1
         /\ List.length (calls s10) = 10).
Proof.
  assert (Inv : lock_consistent s).
  { eapply exec_keeps_lock; [| exact Hrun].
    unfold lock_consistent, idle. simpl. rewrite Hfree. reflexivity. }
  split; [| split; [exact Inv | split; [| split]]].
  - pose proof (in_flight_le_refreshing (calls s)) as L.
    unfold lock_consistent in Inv.
    destruct (isRefreshing (state s)); lia.
  - intros ev s'. apply release_step. exact Inv.
  - intros i p r parsed_at. apply attempt_finishes.
  - eexists. split; [vm_compute; reflexivity |]. repeat split.
Qed.

Lemma single_refresh_in_flight_witness :
  count fetch_in_flight
        [Parsing (JsonResolved good_envelope); Resuming; Resuming] <= 1.
Proof.
  exact (proj1 (single_refresh_in_flight api fresh
                  [Call in_window; Call in_window;
                   FetchSettles 0 (FetchResolved true (JsonResolved good_envelope));
                   Call in_window]
                  _ eq_refl eq_refl)).
Defined.

(** ** The mouse listeners *)

Import DataLoom MouseExamples.

Lemma buffer_bounded (st : mouse_state) :
  mouse_reachable st -> List.length (mouseTrajectory st) <= 50.
Proof.
  induction 1 as [| st ev _ IH]; [simpl; lia |].
  destruct ev as [e | |]; simpl; try exact IH; try lia.
  unfold on_mousemove.
  destruct (gate_open st e); [| exact IH].
  destruct (Nat.ltb_spec (List.length (mouseTrajectory st)) 50) as [Lt | Ge]; simpl.
  - rewrite length_app. simpl. lia.
  - exact IH.
Qed.

Lemma buffer_after_move (st : mouse_state) (e : mousemove) :
  mouseTrajectory (on_mousemove st e)
  = if gate_open st e && (List.length (mouseTrajectory st) <? 50)%nat
    then (mouseTrajectory st ++ [sample_of e])%list
    else mouseTrajectory st.
Proof.
  unfold on_mousemove.
  destruct (gate_open st e); [| reflexivity].
  destruct (List.length (mouseTrajectory st) <? 50)%nat; reflexivity.
Qed.

(** C9, as stated, fails: for a pointer event exactly 100 ms after the last
    accepted sample, with one sample in the buffer, at least 100 ms have
    elapsed and the buffer is not full, yet the sample is not appended. *)
Lemma sample_after_exactly_100ms_is_dropped :
  let st := mouse_run [MouseMove first_move] in
  mouse_reachable st
  /\ mouseTrajectory st = [sample_of first_move]
  /\ ~ (mouseTrajectory (on_mousemove st second_move)
        = (mouseTrajectory st ++ [sample_of second_move])%list
        <-> (100 <=? now_gate second_move - pt (sample_of first_move))%float = true
            /\ List.length (mouseTrajectory st) < 50).
Proof.
  split; [| split; [reflexivity |]].
  - apply (mouse_reach_step _ (MouseMove first_move)). constructor.
  - intros [_ H].
    assert (E : mouseTrajectory (on_mousemove (mouse_run [MouseMove first_move]) second_move)
                = (mouseTrajectory (mouse_run [MouseMove first_move])
                   ++ [sample_of second_move])%list).
    { apply H. split; [reflexivity | simpl; lia]. }
    discriminate E.
Qed.

(** C9, amended.  In every reachable state the buffer holds at most 50
    samples.  The sample of a pointer event is appended if and only if the
    gate is open, that is more than 100 ms separate the event from the time
    kept in [lastMousePosition], and the buffer holds fewer than 50 samples;
    otherwise the buffer is unchanged.  The time kept is that of the last
    event that found the gate open, stored or not.  A run of the trajectory
    probe returns the buffer and its analysis and leaves the buffer empty. *)
Theorem mouse_buffer_invariant (st : mouse_state) (Hreach : mouse_reachable st) :
  List.length (mouseTrajectory st) <= 50
  /\ (forall e,
         mouseTrajectory (on_mousemove st e)
         = (mouseTrajectory st ++ [sample_of e])%list
         <-> (100 <? now_gate e - t (lastMousePosition st))%float = true
             /\ List.length (mouseTrajectory st) < 50)
  /\ (forall e,
         mouseTrajectory (on_mousemove st e)
         <> (mouseTrajectory st ++ [sample_of e])%list ->
         mouseTrajectory (on_mousemove st e) = mouseTrajectory st)
  /\ (forall e,
         t (lastMousePosition (on_mousemove st e))
         = if (100 <? now_gate e - t (lastMousePosition st))%float
           then now_position e else t (lastMousePosition st))
  /\ points (snd (_getMouseTrajectory st)) = mouseTrajectory st
  /\ analysis (snd (_getMouseTrajectory st)) = _analyzeMouseTrajectory (mouseTrajectory st)
  /\ mouseTrajectory (fst (_getMouseTrajectory st)) = []
  /\ mouse_reachable (fst (_getMouseTrajectory st)).
Proof.
  split; [apply buffer_bounded; exact Hreach |].
  split; [| split; [| split; [| repeat split]]].
  - intros e. rewrite buffer_after_move. fold (gate_open st e).
    destruct (gate_open st e); simpl.
    + destruct (Nat.ltb_spec (List.length (mouseTrajectory st)) 50) as [Lt | Ge].
      * split; auto.
      * split; [| lia].
        intros H. apply (f_equal (@List.length _)) in H.
        rewrite length_app in H. simpl in H. lia.
    + split; [| intros [H _]; discriminate H].
      intros H. apply (f_equal (@List.length _)) in H.
      rewrite length_app in H. simpl in H. lia.
  - intros e. rewrite buffer_after_move.
    destruct (gate_open st e && (List.length (mouseTrajectory st) <? 50)%nat);
      [intros H; contradiction H |]; reflexivity.
  - intros e. unfold on_mousemove. fold (gate_open st e).
    destruct (gate_open st e); [| reflexivity].
    destruct (List.length (mouseTrajectory st) <? 50)%nat; reflexivity.
  - apply (mouse_reach_step st TrajectoryProbe). exact Hreach.
Qed.

Lemma mouse_buffer_invariant_witness :
  mouseTrajectory (on_mousemove (mouse_run [MouseMove first_move]) later_move)
  = [sample_of first_move; sample_of later_move].
Proof.
  refine (proj2 (proj1 (proj2
            (mouse_buffer_invariant (mouse_run [MouseMove first_move]) _)) later_move) _).
  - apply (mouse_reach_step _ (MouseMove first_move)). constructor.
  - split; [reflexivity | simpl; lia].
Defined.

(** ** Trajectory analysis *)

Lemma intervals_are_time_steps (trajectory : list point) :
  intervals trajectory = time_steps trajectory.
Proof.
  unfold intervals.
  destruct trajectory as [| p rest]; [reflexivity |].
  simpl tl. revert p.
  induction rest as [| q rest IH]; intros p; [reflexivity |].
  simpl. f_equal. apply IH.
Qed.

Lemma sum_is_total (l : list float) : sum l = total_from 0 l.
Proof.
  unfold sum. generalize 0%float.
  induction l as [| v rest IH]; intros acc; [reflexivity |].
  simpl. apply IH.
Qed.

Lemma stddev_is_population_stddev (trajectory : list point) :
  stdDevInterval trajectory = population_stddev (time_steps trajectory).
Proof.
  unfold stdDevInterval, avgInterval, population_stddev, mean, Math_sqrt, Math_pow2.
  rewrite intervals_are_time_steps, !sum_is_total. reflexivity.
Qed.

Lemma loop_pairs_are_segments (trajectory : list point) :
  combine trajectory (tl trajectory) = segments trajectory.
Proof.
  destruct trajectory as [| p rest]; [reflexivity |].
  simpl tl. revert p.
  induction rest as [| q rest IH]; intros p; [reflexivity |].
  simpl. f_equal. apply IH.
Qed.

Lemma slope_is_slope_rule (seg : point * point) :
  segment_slope (fst seg) (snd seg) = slope_rule seg.
Proof.
  destruct seg as [p q]. unfold segment_slope, slope_rule. simpl fst. simpl snd.
  destruct (px q - px p =? 0)%float, (py q - py p =? 0)%float; reflexivity.
Qed.

Lemma consistent_pairs_cons (a b : float) (rest : list float) :
  consistent_pairs (a :: b :: rest)
  = (if (abs (b - a) <? 0.1)%float then 1 else 0) + consistent_pairs (b :: rest).
Proof. reflexivity. Qed.

Lemma slope_fold_counts (segs : list (point * point)) :
  forall st : slope_state,
    consistentSlopes (fold_left slope_step segs st)
    = consistentSlopes st
      + consistent_pairs match lastSlope st with
                         | Some last => last :: segment_slopes segs
                         | None => segment_slopes segs
                         end.
Proof.
  induction segs as [| seg rest IH]; intros st.
  - simpl. destruct (lastSlope st); simpl; lia.
  - simpl fold_left. rewrite IH. unfold slope_step. simpl segment_slopes.
    rewrite slope_is_slope_rule.
    destruct (slope_rule seg) as [slope |]; [| reflexivity].
    simpl lastSlope. simpl consistentSlopes.
    destruct (lastSlope st) as [last |].
    + rewrite consistent_pairs_cons. unfold Math_abs.
      destruct (abs (slope - last) <? 0.1)%float; lia.
    + destruct (segment_slopes rest); simpl; lia.
Qed.

Lemma loop_counts_consistent_pairs (trajectory : list point) :
  consistentSlopes (slope_loop trajectory)
  = consistent_pairs (segment_slopes (segments trajectory)).
Proof.
  unfold slope_loop. rewrite slope_fold_counts, loop_pairs_are_segments. reflexivity.
Qed.

(** A finite number other than zero, divided by itself, is exactly 1. *)
Lemma div_self (d : float) : displaced d = true -> (d / d)%float = 1%float.
Proof.
  unfold displaced. intros H.
  destruct (Prim2SF d) as [| | | s m e] eqn:E; try discriminate H.
  apply Prim2SF_inj. rewrite div_spec, E.
  unfold SF64div, SFdiv, SFdiv_core_binary.
  replace (Zdigits2 (Z.pos m) + e - (Zdigits2 (Z.pos m) + e))%Z with 0%Z by lia.
  replace (e - e)%Z with 0%Z by lia.
  change (Z.min (fexp prec emax 0) 0) with (-53)%Z.
  change (0 - -53)%Z with 53%Z. cbv iota.
  rewrite Z.shiftl_mul_pow2 by lia.
  rewrite (Z.mul_comm (Z.pos m) (2 ^ 53)).
  assert (Q : Z.div_eucl (2 ^ 53 * Z.pos m) (Z.pos m) = (2 ^ 53, 0)%Z).
  { pose proof (Z.div_mul (2 ^ 53) (Z.pos m) ltac:(lia)) as D.
    pose proof (Z.mod_mul (2 ^ 53) (Z.pos m) ltac:(lia)) as M.
    unfold Z.div, Z.modulo in D, M.
    destruct (Z.div_eucl (2 ^ 53 * Z.pos m) (Z.pos m)) as [q r].
    simpl in D, M. subst. reflexivity. }
  rewrite Q.
  replace (new_location (Z.pos m) 0) with loc_Exact
    by (unfold new_location; destruct (Z.even (Z.pos m)); reflexivity).
  destruct s; vm_compute; reflexivity.
Qed.

Lemma displaced_not_zero (d : float) : displaced d = true -> (d =? 0)%float = false.
Proof.
  unfold displaced. intros H.
  rewrite FloatAxioms.eqb_spec.
  assert (Zero : Prim2SF 0 = S754_zero false) by (vm_compute; reflexivity).
  rewrite Zero.
  destruct (Prim2SF d) as [| | | [] m e]; try discriminate H; reflexivity.
Qed.

Lemma time_steps_length (trajectory : list point) :
  List.length (time_steps trajectory) = List.length trajectory - 1.
Proof.
  destruct trajectory as [| p rest]; [reflexivity |]. revert p.
  induction rest as [| q rest IH]; intros p; [reflexivity |].
  change (S (List.length (time_steps (q :: rest))) = S (List.length (q :: rest)) - 1).
  rewrite IH. simpl. lia.
Qed.

Lemma segments_length (trajectory : list point) :
  List.length (segments trajectory) = List.length trajectory - 1.
Proof.
  destruct trajectory as [| p rest]; [reflexivity |]. revert p.
  induction rest as [| q rest IH]; intros p; [reflexivity |].
  change (S (List.length (segments (q :: rest))) = S (List.length (q :: rest)) - 1).
  rewrite IH. simpl. lia.
Qed.

Lemma segments_ends (P : point -> Prop) (trajectory : list point) :
  Forall P trajectory ->
  Forall (fun seg => P (fst seg) /\ P (snd seg)) (segments trajectory).
Proof.
  destruct trajectory as [| p rest]; [constructor |]. revert p.
  induction rest as [| q rest IH]; intros p H; [constructor |].
  change (Forall (fun seg => P (fst seg) /\ P (snd seg))
                 ((p, q) :: segments (q :: rest))).
  inversion H as [| ? ? Hp Hrest]; subst.
  constructor; [| apply IH; exact Hrest].
  inversion Hrest; subst. split; assumption.
Qed.

Lemma all_equal_repeat {A : Type} (a : A) (l : list A) :
  Forall (fun v => v = a) l -> l = repeat a (List.length l).
Proof.
  induction 1 as [| v l -> _ IH]; [reflexivity |]. simpl. f_equal. exact IH.
Qed.

Lemma forallb_Forall {A : Type} (f : A -> bool) (l : list A) :
  forallb f l = true -> Forall (fun a => f a = true) l.
Proof.
  induction l as [| a rest IH]; intros H; [constructor |].
  simpl in H. apply andb_prop in H as [Ha Hrest].
  constructor; [exact Ha | exact (IH Hrest)].
Qed.

(** Moving along the line [y = x], every segment has slope exactly 1. *)
Lemma slopes_on_the_diagonal (segs : list (point * point)) :
  Forall (fun seg => py (fst seg) = px (fst seg) /\ py (snd seg) = px (snd seg)) segs ->
  Forall (fun seg => displaced (px (snd seg) - px (fst seg)) = true) segs ->
  segment_slopes segs = repeat 1%float (List.length segs).
Proof.
  induction segs as [| [p q] rest IH]; intros Hline Hmoved; [reflexivity |].
  inversion Hline as [| ? ? [Hp Hq] Hline']; subst.
  inversion Hmoved as [| ? ? Hd Hmoved']; subst.
  simpl in Hp, Hq, Hd.
  simpl segment_slopes. unfold slope_rule.
  rewrite Hp, Hq, (displaced_not_zero _ Hd), (div_self _ Hd), (IH Hline' Hmoved').
  reflexivity.
Qed.

(** C8. A trajectory of fewer than 10 points is analysed as
    [{regularity_score: 0, is_straight_line: false}].  For at least 10 points,
    with [sigma] the population standard deviation of the times between
    consecutive samples and [k] the number of adjacent pairs of segment slopes
    (segments without displacement skipped, vertical segments taken as
    +infinity) whose absolute difference is below 0.1: [is_straight_line]
    holds exactly when [k / (n - 1)] exceeds 0.8, and the score is the sum of
    0.8 when [sigma < 10] and of 1.0 when [is_straight_line], capped at 1:
    1, 0.8 or 0.  Any twenty samples on the line [y = x], each displaced from
    the one before it and taken exactly 100 ms after it, give
    [is_straight_line = true] and [regularity_score = 1]. *)
Theorem trajectory_analysis_spec (trajectory : list point) :
  (List.length trajectory < 10 ->
   _analyzeMouseTrajectory trajectory
   = {| regularity_score := 0; is_straight_line := false |})
  /\ (10 <= List.length trajectory ->
      let sigma := population_stddev (time_steps trajectory) in
      let k := consistent_pairs (segment_slopes (segments trajectory)) in
      let straight :=
        (0.8 <? of_nat k / (of_nat (List.length trajectory) - 1))%float in
      is_straight_line (_analyzeMouseTrajectory trajectory) = straight
      /\ regularity_score (_analyzeMouseTrajectory trajectory)
         = (if straight then 1.0 else if (sigma <? 10)%float then 0.8 else 0)%float
      /\ (0 <=? regularity_score (_analyzeMouseTrajectory trajectory))%float = true
      /\ (regularity_score (_analyzeMouseTrajectory trajectory) <=? 1)%float = true)
  /\ (List.length trajectory = 20 ->
      Forall (fun p => py p = px p) trajectory ->
      Forall (fun seg => displaced (px (snd seg) - px (fst seg)) = true)
             (segments trajectory) ->
      Forall (fun step => step = 100%float) (time_steps trajectory) ->
      _analyzeMouseTrajectory trajectory
      = {| regularity_score := 1.0; is_straight_line := true |}).
Proof.
  assert (Long : 10 <= List.length trajectory ->
                 _analyzeMouseTrajectory trajectory
                 = let sigma := population_stddev (time_steps trajectory) in
                   let k := consistent_pairs (segment_slopes (segments trajectory)) in
                   let straight :=
                     (0.8 <? of_nat k / (of_nat (List.length trajectory) - 1))%float in
                   {| regularity_score :=
                        Math_min ((if (sigma <? 10)%float then 0 + 0.8 else 0)
                                  + (if straight then 1.0 else 0))%float 1.0;
                      is_straight_line := straight |}).
  { intros Hlong. unfold _analyzeMouseTrajectory.
    destruct (Nat.ltb_spec (List.length trajectory) 10) as [Lt | _]; [lia |].
    rewrite stddev_is_population_stddev, loop_counts_consistent_pairs.
    cbv zeta.
    destruct (population_stddev (time_steps trajectory) <? 10)%float,
      (0.8 <? of_nat (consistent_pairs (segment_slopes (segments trajectory)))
              / (of_nat (List.length trajectory) - 1))%float; reflexivity. }
  split; [| split].
  - intros Hshort. unfold _analyzeMouseTrajectory.
    destruct (Nat.ltb_spec (List.length trajectory) 10) as [_ | Ge]; [reflexivity | lia].
  - intros Hlong sigma k straight.
    rewrite (Long Hlong). cbv zeta. fold sigma. fold k. fold straight.
    cbn [is_straight_line regularity_score].
    destruct (sigma <? 10)%float, straight; repeat split; reflexivity.
  - intros Hlen Hline Hmoved Hsteps.
    rewrite (Long ltac:(lia)).
    rewrite (slopes_on_the_diagonal (segments trajectory)
               (segments_ends (fun p => py p = px p) trajectory Hline) Hmoved).
    rewrite (all_equal_repeat _ _ Hsteps).
    rewrite segments_length, time_steps_length, Hlen.
    vm_compute. reflexivity.
Qed.

Lemma trajectory_analysis_spec_witness :
  _analyzeMouseTrajectory short_diagonal
  = {| regularity_score := 0; is_straight_line := false |}
  /\ is_straight_line (_analyzeMouseTrajectory diagonal) = true
  /\ _analyzeMouseTrajectory (map (fun p => {| px := px p + 0.5; py := py p + 0.5;
                                               pt := pt p + 250 |}) diagonal)
     = {| regularity_score := 1.0; is_straight_line := true |}.
Proof.
  split; [| split].
  - apply (proj1 (trajectory_analysis_spec short_diagonal)). simpl. lia.
  - rewrite (proj1 (proj1 (proj2 (trajectory_analysis_spec diagonal))
                      ltac:(simpl; lia))).
    reflexivity.
  - apply (proj2 (proj2 (trajectory_analysis_spec _))).
    + reflexivity.
    + vm_compute. repeat constructor.
    + apply forallb_Forall. vm_compute. reflexivity.
    + vm_compute. repeat constructor.
Defined.

(** ** The clamp of the risk score *)

(** Facts about binary64 values, from the specification of the primitive
    operations. *)





















(** * Further properties of the code *)

(** ** Key order *)

Lemma ascii_compare_trans (a b c : ascii) :
  Ascii.compare a b <> Gt -> Ascii.compare b c <> Gt -> Ascii.compare a c <> Gt.
Proof.
  unfold Ascii.compare. rewrite !N.compare_le_iff.
  intros H1 H2. eapply N.le_trans; eauto.
Qed.

Lemma string_leb_trans (s1 s2 s3 : string) :
  String.leb s1 s2 = true -> String.leb s2 s3 = true -> String.leb s1 s3 = true.
Proof.
  unfold String.leb.
  revert s2 s3.
  induction s1 as [| a s1 IH]; intros [| b s2] [| c s3]; simpl; try reflexivity;
    try discriminate.
  destruct (Ascii.compare a b) eqn:Cab; try discriminate;
    destruct (Ascii.compare b c) eqn:Cbc; try discriminate; intros H1 H2.
  - apply Ascii.compare_eq_iff in Cab, Cbc. subst.
    unfold Ascii.compare at 1. rewrite N.compare_refl.
    eapply IH; eauto.
  - apply Ascii.compare_eq_iff in Cab. subst. rewrite Cbc. reflexivity.
  - apply Ascii.compare_eq_iff in Cbc. subst. rewrite Cab. reflexivity.
  - assert (L : Ascii.compare a c = Lt).
    { unfold Ascii.compare in *. rewrite N.compare_lt_iff in *.
      eapply N.lt_trans; eauto. }
    rewrite L. reflexivity.
Qed.

Lemma insert_sorted_comm (a b : string) (l : list string) :
  insert_sorted a (insert_sorted b l) = insert_sorted b (insert_sorted a l).
Proof.
  induction l as [| h t IH]; simpl.
  - destruct (String.leb a b) eqn:Hab, (String.leb b a) eqn:Hba; try reflexivity.
    + rewrite (String.leb_antisym _ _ Hab Hba). reflexivity.
    + destruct (String.leb_total a b); congruence.
  - destruct (String.leb b h) eqn:Hbh, (String.leb a h) eqn:Hah; simpl.
    + destruct (String.leb a b) eqn:Hab, (String.leb b a) eqn:Hba;
        rewrite ?Hbh, ?Hah; try reflexivity.
      * rewrite (String.leb_antisym _ _ Hab Hba). reflexivity.
      * destruct (String.leb_total a b); congruence.
    + destruct (String.leb a b) eqn:Hab.
      * rewrite (string_leb_trans _ _ _ Hab Hbh) in Hah. discriminate.
      * rewrite Hah, Hbh. reflexivity.
    + destruct (String.leb b a) eqn:Hba.
      * rewrite (string_leb_trans _ _ _ Hba Hah) in Hbh. discriminate.
      * rewrite Hah, Hbh. reflexivity.
    + rewrite Hah, Hbh, IH. reflexivity.
Qed.

Lemma sort_permutation (l l' : list string) :
  Permutation l l' -> sort l = sort l'.
Proof.
  unfold sort.
  induction 1 as [| x l l' _ IH | x y l | l l' l'' _ IH1 _ IH2]; simpl.
  - reflexivity.
  - rewrite IH. reflexivity.
  - apply insert_sorted_comm.
  - rewrite IH1. exact IH2.
Qed.

Lemma lookup_permutation (ps qs : list (string * value)) :
  Permutation ps qs -> NoDup (map fst ps) -> forall k, lookup k ps = lookup k qs.
Proof.
  induction 1 as [| [k1 v1] ps qs P IH | [k1 v1] [k2 v2] ps | ps qs rs P1 IH1 P2 IH2];
    intros ND k; simpl in *.
  - reflexivity.
  - inversion ND; subst. rewrite IH by assumption. reflexivity.
  - destruct (String.eqb_spec k k2) as [E2 |], (String.eqb_spec k k1) as [E1 |];
      try reflexivity.
    inversion ND as [| ? ? Hnot _]; subst. exfalso. apply Hnot. left. reflexivity.
  - rewrite IH1 by assumption. apply IH2.
    eapply Permutation_NoDup; [| exact ND]. apply Permutation_map. exact P1.
Qed.

Import Laws CoverageExamples.

Lemma get_is_lookup (ps : list (string * value)) (k : string) :
  get (Obj ps) k = lookup k ps.
Proof. reflexivity. Qed.

(** X1. [_serializeGetParams] does not depend on the order in which the
    properties of the parameter object are listed, provided their names are
    distinct (as the own properties of an object are). *)
Theorem get_params_order_independent
        (digits : float -> string) (ps qs : list (string * value))
        (Hperm : Permutation ps qs) (Hnodup : NoDup (map fst ps)) :
  _serializeGetParams digits (Obj ps) = _serializeGetParams digits (Obj qs).
Proof.
  unfold _serializeGetParams. simpl.
  rewrite !length_map, (Permutation_length Hperm).
  rewrite (sort_permutation (map fst ps) (map fst qs))
    by (apply Permutation_map; exact Hperm).
  destruct (List.length qs =? 0)%nat; [reflexivity |].
  f_equal. apply map_ext. intros k.
  rewrite (lookup_permutation ps qs Hperm Hnodup k). reflexivity.
Qed.

Lemma get_params_order_independent_witness :
  _serializeGetParams no_digits params_ba = _serializeGetParams no_digits params_ab.
Proof.
  apply get_params_order_independent.
  - apply perm_swap.
  - repeat constructor; simpl; intuition discriminate.
Defined.

Lemma canonical_object (digits : float -> string) (ps : list (string * value)) :
  _canonicalJsonStringify digits (Obj ps)
  = Some (object_text (sort (map fst ps)) (rendered_props digits ps)).
Proof.
  unfold object_text. simpl.
  match goal with
  | |- context [lookup_rendered _ (?f ps)] =>
      assert (R : forall l, f l = rendered_props digits l)
  end.
  { induction l as [| [k e] rest IH]; [reflexivity |]. simpl. rewrite IH. reflexivity. }
  rewrite R. reflexivity.
Qed.

Lemma lookup_rendered_props (digits : float -> string) (ps : list (string * value))
      (k : string) :
  lookup_rendered k (rendered_props digits ps)
  = template (_canonicalJsonStringify digits (lookup k ps)).
Proof.
  induction ps as [| [k' e] rest IH]; simpl; [reflexivity |].
  destruct (String.eqb k k'); [reflexivity | exact IH].
Qed.

Lemma canonical_object_permutation
      (digits : float -> string) (ps qs : list (string * value)) :
  Permutation ps qs -> NoDup (map fst ps) ->
  _canonicalJsonStringify digits (Obj ps) = _canonicalJsonStringify digits (Obj qs).
Proof.
  intros Hperm Hnodup. rewrite !canonical_object. unfold object_text.
  rewrite (sort_permutation (map fst ps) (map fst qs))
    by (apply Permutation_map; exact Hperm).
  do 4 f_equal. apply map_ext. intros k.
  rewrite !lookup_rendered_props, (lookup_permutation ps qs Hperm Hnodup k).
  reflexivity.
Qed.

Lemma canonical_array (digits : float -> string) (items : list value) :
  _canonicalJsonStringify digits (Arr items)
  = Some ("[" ++ join "," (map (fun item => joined (_canonicalJsonStringify digits item))
                               items) ++ "]").
Proof. reflexivity. Qed.

(** An [undefined] element of an array leaves an empty slot, an [undefined]
    member of an object is written out. *)
Lemma canonical_undefined (digits : float -> string) :
  _canonicalJsonStringify digits (Arr [Undefined; Num 1]) = Some "[,1]"
  /\ _canonicalJsonStringify digits (Obj [("a", Undefined)])
     = Some (quoted "{'a':undefined}").
Proof. split; reflexivity. Qed.

(** X2. [_canonicalJsonStringify] gives the same text for a value and for
    any deep shuffle of it: the same value with the properties of its
    objects, at every depth, listed in another order.  This holds for every
    value, arrays with [undefined] elements included. *)
Theorem canonical_json_shuffle_invariant (digits : float -> string) :
  forall v w : value,
    shuffle v w -> _canonicalJsonStringify digits v = _canonicalJsonStringify digits w.
Proof.
  fix IH 3. intros v w H.
  destruct H as [v | items items' Hitems | props moved props' Hnodup Hperm Hmoved].
  - reflexivity.
  - rewrite !canonical_array.
    assert (M : map (fun item => joined (_canonicalJsonStringify digits item)) items
                = map (fun item => joined (_canonicalJsonStringify digits item)) items').
    { induction Hitems as [| x y l l' Hxy _ IHl]; [reflexivity |].
      simpl. rewrite (IH x y Hxy), IHl. reflexivity. }
    rewrite M. reflexivity.
  - rewrite (canonical_object_permutation digits props moved Hperm Hnodup).
    rewrite !canonical_object.
    assert (K : map fst moved = map fst props'
                /\ rendered_props digits moved = rendered_props digits props').
    { clear Hperm Hnodup.
      induction Hmoved as [| p q l l' [Hk Hs] _ [IHk IHr]]; [split; reflexivity |].
      simpl. rewrite Hk, IHk, IHr, (IH (snd p) (snd q) Hs). split; reflexivity. }
    destruct K as [-> ->]. reflexivity.
Qed.

Lemma canonical_json_shuffle_invariant_witness :
  _canonicalJsonStringify no_digits nested_params
  = _canonicalJsonStringify no_digits nested_params_shuffled.
Proof.
  apply canonical_json_shuffle_invariant.
  apply (shuffle_object _ [("a", Num 1); ("b", Arr [Obj [("z", Null); ("y", Str "q")]])]).
  - repeat constructor; simpl; intuition discriminate.
  - apply perm_swap.
  - repeat constructor.
    apply (shuffle_object _ [("y", Str "q"); ("z", Null)]).
    + repeat constructor; simpl; intuition discriminate.
    + apply perm_swap.
    + repeat constructor.
Defined.

Lemma occurrences_app (c : ascii) (s1 s2 : string) :
  occurrences c (s1 ++ s2) = occurrences c s1 + occurrences c s2.
Proof.
  induction s1 as [| a r IH]; simpl; [reflexivity |]. rewrite IH. lia.
Qed.

Lemma uri_encode_char_clean (a : ascii) :
  occurrences "&" (uri_encode_char a) = 0 /\ occurrences "=" (uri_encode_char a) = 0.
Proof.
  destruct a as [[] [] [] [] [] [] [] []]; vm_compute; split; reflexivity.
Qed.

Lemma encodeURIComponent_clean (s : string) :
  occurrences "&" (encodeURIComponent s) = 0
  /\ occurrences "=" (encodeURIComponent s) = 0.
Proof.
  induction s as [| a r [IH1 IH2]]; simpl; [split; reflexivity |].
  rewrite !occurrences_app, IH1, IH2.
  destruct (uri_encode_char_clean a) as [-> ->]. split; reflexivity.
Qed.

Lemma insert_sorted_length (k : string) (l : list string) :
  List.length (insert_sorted k l) = S (List.length l).
Proof.
  induction l as [| h t IH]; simpl; [reflexivity |].
  destruct (String.leb k h); simpl; [reflexivity |]. rewrite IH. reflexivity.
Qed.

Lemma sort_length (l : list string) : List.length (sort l) = List.length l.
Proof.
  unfold sort. induction l as [| h t IH]; simpl; [reflexivity |].
  rewrite insert_sorted_length, IH. reflexivity.
Qed.

Lemma join_pairs_count (pairs : list string) :
  Forall (fun p => occurrences "&" p = 0 /\ occurrences "=" p = 1) pairs ->
  pairs <> [] ->
  occurrences "&" (join "&" pairs) = List.length pairs - 1
  /\ occurrences "=" (join "&" pairs) = List.length pairs.
Proof.
  unfold join.
  induction 1 as [| p rest [Hp1 Hp2] Hrest IH]; intros Hne; [contradiction |].
  destruct rest as [| q rest'].
  - simpl. rewrite Hp1, Hp2. split; reflexivity.
  - destruct IH as [IH1 IH2]; [discriminate |].
    change (concat "&" (p :: q :: rest')) with (p ++ "&" ++ concat "&" (q :: rest')).
    rewrite !occurrences_app, IH1, IH2, Hp1, Hp2. simpl. split; lia.
Qed.

(** X3. The text [_serializeGetParams] produces for an object with [n >= 1]
    properties contains exactly [n] equals signs and [n - 1] ampersands:
    every such character in a name or a value has been percent-encoded, so
    the pairs can be split apart without ambiguity. *)
Theorem get_params_separators
        (digits : float -> string) (ps : list (string * value)) (Hne : ps <> []) :
  occurrences "=" (_serializeGetParams digits (Obj ps)) = List.length ps
  /\ occurrences "&" (_serializeGetParams digits (Obj ps)) = List.length ps - 1.
Proof.
  unfold _serializeGetParams. simpl.
  rewrite length_map.
  destruct ps as [| p ps']; [contradiction |]. simpl Nat.eqb. cbv iota.
  set (keys := sort (map fst (p :: ps'))).
  assert (L : List.length keys = List.length (p :: ps'))
    by (unfold keys; rewrite sort_length, length_map; reflexivity).
  set (pair := fun key : string =>
                 encodeURIComponent key ++ "="
                 ++ encodeURIComponent (ToString digits (lookup key (p :: ps')))).
  destruct (join_pairs_count (map pair keys)) as [A E].
  - apply Forall_forall. intros x Hx. apply in_map_iff in Hx as [k [<- _]].
    unfold pair. rewrite !occurrences_app.
    destruct (encodeURIComponent_clean k) as [-> ->].
    destruct (encodeURIComponent_clean (ToString digits (lookup k (p :: ps'))))
      as [-> ->].
    split; reflexivity.
  - intros H. apply (f_equal (@List.length _)) in H.
    rewrite length_map, L in H. discriminate H.
  - rewrite length_map, L in A, E. split; assumption.
Qed.

Lemma get_params_separators_witness :
  occurrences "=" (_serializeGetParams no_digits
                     (Obj [("q", Str "a=b&c"); ("page", Num 2)])) = 2
  /\ occurrences "&" (_serializeGetParams no_digits
                        (Obj [("q", Str "a=b&c"); ("page", Num 2)])) = 1.
Proof.
  apply (get_params_separators no_digits [("q", Str "a=b&c"); ("page", Num 2)]).
  discriminate.
Defined.

(** X4. For a method that, upper-cased, is none of GET, POST, PUT, PATCH and
    DELETE, the serialized parameters are the empty string, so the signed
    record does not depend on the parameters of the request. *)
Theorem other_methods_leave_params_unsigned
        (digits : float -> string) (env : attempt) (d : collected) (w : weight_map)
        (realUrl method : string) (params params' : value)
        (Hget : toUpperCase method <> "GET")
        (Hbody : includes ["POST"; "PUT"; "PATCH"; "DELETE"] (toUpperCase method) = false) :
  serializedParams digits (toUpperCase method) params = ""
  /\ signed_record digits env d w realUrl params method
     = signed_record digits env d w realUrl params' method.
Proof.
  assert (S : forall p, serializedParams digits (toUpperCase method) p = "").
  { intros p. unfold serializedParams. rewrite Hbody.
    destruct (String.eqb_spec (toUpperCase method) "GET"); [contradiction | reflexivity]. }
  split; [apply S |].
  unfold signed_record. rewrite !S. reflexivity.
Qed.

Lemma other_methods_leave_params_unsigned_witness :
  signed_record no_digits ping_attempt ping_bag [] "/api/ping" params_ba "head"
  = signed_record no_digits ping_attempt ping_bag [] "/api/ping" (Obj []) "head".
Proof.
  apply other_methods_leave_params_unsigned.
  - discriminate.
  - reflexivity.
Defined.



Import ScoringExamples Design CoreEngine.

(** ** Weights and policy *)

Lemma risk_sum_two_weights
      (d : collected) (w w' : weight_map)
      (Ha : or_default (weight "anomaly_scan" w) 50
            = or_default (weight "anomaly_scan" w') 50)
      (Ht : or_default (weight "mouse_trajectory" w) 25
            = or_default (weight "mouse_trajectory" w') 25) :
  risk_sum d w = risk_sum d w'.
Proof. unfold risk_sum. rewrite Ha, Ht. reflexivity. Qed.

(** X6. The scorer reads two weights only, [anomaly_scan] and
    [mouse_trajectory], each through [|| default]: two weight maps that agree
    on these two after defaulting give the same sum and the same score.  In
    particular a weight that is absent, 0 or NaN counts as 50, respectively
    25. *)
Theorem score_reads_two_weights
        (d : collected) (w w' : weight_map)
        (Ha : or_default (weight "anomaly_scan" w) 50
              = or_default (weight "anomaly_scan" w') 50)
        (Ht : or_default (weight "mouse_trajectory" w) 25
              = or_default (weight "mouse_trajectory" w') 25) :
  risk_sum d w = risk_sum d w'
  /\ _calculateRiskScore d w = _calculateRiskScore d w'.
Proof.
  pose proof (risk_sum_two_weights d w w' Ha Ht) as H.
  split; [exact H |]. unfold _calculateRiskScore. rewrite H. reflexivity.
Qed.

Lemma score_reads_two_weights_witness :
  _calculateRiskScore driven
     [("anomaly_scan", 0%float); ("mouse_trajectory", nan); ("canvas", 1000%float)]
  = _calculateRiskScore driven [].
Proof.
  apply score_reads_two_weights; reflexivity.
Defined.

(** X7. Whatever the capability snapshot, the policy lists the collectors
    [platform], [screen], [mouse_trajectory] and [anomaly_scan], lists
    [canvas], [webgl], [audio] and [performance] exactly when the matching
    capability holds ([audio] never on iOS), and carries the weights 50 and
    25 the scorer would default to: scoring with the weights of any generated
    policy is scoring with no weights at all. *)
Theorem policy_of_capabilities (caps : capabilities) (d : collected) :
  let p := _generateDynamicPolicy caps in
  (forall name, In name ["platform"; "screen"; "mouse_trajectory"; "anomaly_scan"] ->
                In name (collectors p))
  /\ (In "canvas" (collectors p) <-> hasCanvas caps = true)
  /\ (In "webgl" (collectors p) <-> hasWebGL caps = true)
  /\ (In "audio" (collectors p)
      <-> hasOfflineAudioContext caps = true /\ isIOS caps = false)
  /\ (In "performance" (collectors p) <-> hasPerformance caps = true)
  /\ weight "anomaly_scan" (weights p) = Some 50%float
  /\ weight "mouse_trajectory" (weights p) = Some 25%float
  /\ _calculateRiskScore d (weights p) = _calculateRiskScore d [].
Proof.
  intros p.
  assert (W : weight "anomaly_scan" (weights p) = Some 50%float
              /\ weight "mouse_trajectory" (weights p) = Some 25%float).
  { destruct caps as [a b [] e [] [] h []]; destruct e; split; reflexivity. }
  destruct W as [Wa Wt].
  assert (C : (forall name,
                  In name ["platform"; "screen"; "mouse_trajectory"; "anomaly_scan"] ->
                  In name (collectors p))
              /\ (In "canvas" (collectors p) <-> hasCanvas caps = true)
              /\ (In "webgl" (collectors p) <-> hasWebGL caps = true)
              /\ (In "audio" (collectors p)
                  <-> hasOfflineAudioContext caps = true /\ isIOS caps = false)
              /\ (In "performance" (collectors p) <-> hasPerformance caps = true)).
  { subst p.
    destruct caps as [a b [] e [] [] h []]; destruct e;
      cbn -[In]; cbn [In];
      (split; [intros name H; intuition (subst; auto 20) |]);
      repeat split; intros; intuition (try discriminate; auto 20). }
  destruct C as (C1 & C2 & C3 & C4 & C5).
  repeat (split; [assumption |]).
  unfold _calculateRiskScore.
  rewrite (risk_sum_two_weights d (weights p) []); [reflexivity | |];
    [rewrite Wa | rewrite Wt]; reflexivity.
Qed.

(** ** The fingerprint text *)

Lemma string_app_assoc (a b c : string) : (a ++ b) ++ c = a ++ (b ++ c).
Proof. induction a as [| x a IH]; simpl; [reflexivity |]. rewrite IH. reflexivity. Qed.

(** X8. When neither the platform nor the WebGL collector returned a
    sentinel and the audio collector ran, the raw fingerprint JSON is the
    object with the members [platform], [renderer] and [audio], in that
    order, each a JSON string: the collector's field, or [N/A] when the
    collector did not run, and the audio result. *)
Theorem raw_fingerprint_shape
        (digits : float -> string) (d : collected) (a : probe string)
        (Hp : forall e, c_platform d <> Some (Sentinel e))
        (Hg : forall e, c_webgl d <> Some (Sentinel e))
        (Ha : c_audio d = Some a) :
  rawFingerprintJson digits d
  = quoted "{'platform':"
    ++ json_quote match c_platform d with
                  | Some (Value p) => platform p
                  | _ => "N/A"
                  end
    ++ quoted ",'renderer':"
    ++ json_quote match c_webgl d with
                  | Some (Value g) => renderer g
                  | _ => "N/A"
                  end
    ++ quoted ",'audio':" ++ json_quote (probe_string a) ++ "}".
Proof.
  unfold rawFingerprintJson, fingerprint_platform, fingerprint_renderer,
    fingerprint_audio.
  rewrite Ha.
  destruct (c_platform d) as [[e | p] |]; [exfalso; apply (Hp e); reflexivity | |];
    (destruct (c_webgl d) as [[e | g] |]; [exfalso; apply (Hg e); reflexivity | |]);
    cbn [JSON_stringify join concat];
    repeat rewrite string_app_assoc; reflexivity.
Qed.

Lemma raw_fingerprint_shape_witness :
  rawFingerprintJson no_digits healthy
  = quoted "{'platform':'Linux x86_64','renderer':'ANGLE (Intel)','audio':'35.73833402246237'}".
Proof.
  rewrite (raw_fingerprint_shape no_digits healthy (Value "35.73833402246237"));
    [reflexivity | discriminate | discriminate | reflexivity].
Defined.

(** ** The nonce *)

Lemma substring_length (a n : nat) (s : string) :
  String.length (String.substring a n s) = Nat.min n (String.length s - a).
Proof.
  revert a n. induction s as [| c r IH]; intros [| a] [| n]; simpl; try reflexivity.
  - rewrite IH. rewrite Nat.sub_0_r. reflexivity.
  - rewrite IH. reflexivity.
  - rewrite IH. reflexivity.
Qed.

(** X9. The nonce is the timestamp in decimal, a hyphen, and the characters
    at positions 2 to 9 of [Math.random().toString(36)]: its random part has
    8 characters only when that text has at least 10, and fewer, down to
    none, otherwise. *)
Theorem nonce_random_part (digits : float -> string) (timestamp : float) (random36 : string) :
  make_nonce digits timestamp random36
  = Number_toString digits timestamp ++ "-" ++ substring 2 10 random36
  /\ String.length (substring 2 10 random36) = Nat.min 8 (String.length random36 - 2)
  /\ make_nonce digits 1700000000000 "0.i" = "1700000000000-i"
  /\ make_nonce digits 1700000000000 "0" = "1700000000000-".
Proof.
  repeat split; try reflexivity.
  unfold substring. apply substring_length.
Qed.

(** ** Vertical movement *)

Import DataLoom MouseExamples TrajectoryLaws.

Lemma SFltb_finite_zero (m : positive) (e : Z) (b : bool) :
  SFltb (S754_finite false m e) (S754_zero b) = false.
Proof. reflexivity. Qed.

Lemma nothing_above_zero_quotient (x : float) : (0.8 <? 0 / x)%float = false.
Proof.
  assert (P8 : exists m e, Prim2SF 0.8 = S754_finite false m e)
    by (vm_compute; eauto).
  destruct P8 as (m & e & P8).
  rewrite FloatAxioms.ltb_spec, div_spec, P8.
  replace (Prim2SF 0) with (S754_zero false) by (vm_compute; reflexivity).
  destruct (Prim2SF x) as [b | b | | b m' e']; reflexivity.
Qed.

Lemma vertical_slopes (segs : list (point * point)) :
  Forall (fun seg => (px (snd seg) - px (fst seg) =? 0)%float = true) segs ->
  Forall (fun s => s = infinity) (segment_slopes segs).
Proof.
  induction 1 as [| [p q] rest H _ IH]; simpl; [constructor |].
  simpl in H. rewrite H.
  destruct (py q - py p =? 0)%float; [exact IH |].
  constructor; [reflexivity | exact IH].
Qed.

Lemma infinite_slopes_never_agree (slopes : list float) :
  Forall (fun s => s = infinity) slopes -> consistent_pairs slopes = 0.
Proof.
  induction 1 as [| a rest Ha Hrest IH]; [reflexivity |].
  destruct rest as [| b rest']; [reflexivity |].
  rewrite consistent_pairs_cons, IH.
  inversion Hrest; subst. reflexivity.
Qed.

(** X10. A trajectory that moves along a vertical line is never reported as
    a straight line, however many points it has: each segment has slope
    [Infinity], and [Infinity - Infinity] is NaN, which is not below 0.1. *)
Theorem vertical_line_not_straight (trajectory : list point) (Hv : vertical trajectory) :
  is_straight_line (_analyzeMouseTrajectory trajectory) = false
  /\ consistentSlopes (slope_loop trajectory) = 0.
Proof.
  assert (K : consistentSlopes (slope_loop trajectory) = 0).
  { rewrite loop_counts_consistent_pairs.
    apply infinite_slopes_never_agree, vertical_slopes. exact Hv. }
  split; [| exact K].
  unfold _analyzeMouseTrajectory.
  destruct (List.length trajectory <? 10)%nat; [reflexivity |].
  cbn [is_straight_line]. rewrite K.
  apply nothing_above_zero_quotient.
Qed.

(** ** Spacing of the samples *)

Lemma spaced_snoc (buffer : list point) (s : point) :
  spaced buffer ->
  (forall p, last buffer s = p -> buffer <> [] -> (100 <? pt s - pt p)%float = true) ->
  spaced (buffer ++ [s])%list.
Proof.
  induction buffer as [| p rest IH]; intros Hs Hl; [exact I |].
  destruct rest as [| q rest'].
  - simpl. split; [| exact I]. apply (Hl p); [reflexivity | discriminate].
  - destruct Hs as [Hpq Hrest].
    change ((p :: q :: rest') ++ [s])%list with (p :: (q :: rest') ++ [s])%list.
    change (spaced (p :: (q :: rest') ++ [s])%list)
      with ((100 <? pt q - pt p)%float = true /\ spaced ((q :: rest') ++ [s])%list).
    split; [exact Hpq |].
    apply IH; [exact Hrest |].
    intros p' Hlast _. apply (Hl p'); [exact Hlast | discriminate].
Qed.

Lemma steady_invariant (st : mouse_state) :
  steadily_reachable st ->
  spaced (mouseTrajectory st)
  /\ (List.length (mouseTrajectory st) < 50 ->
      forall s p, mouseTrajectory st <> [] -> last (mouseTrajectory st) s = p ->
                  pt p = t (lastMousePosition st)).
Proof.
  induction 1 as [| st e _ [IHs IHl] [Hpos Hsam] | st _ [IHs IHl] | st _ _].
  - split; [exact I |]. intros _ s p Hne. contradiction Hne. reflexivity.
  - unfold on_mousemove.
    destruct (gate_open st e) eqn:G; [| split; assumption].
    destruct (Nat.ltb_spec (List.length (mouseTrajectory st)) 50) as [Lt50 | Ge50]; simpl.
    + split.
      * apply spaced_snoc; [exact IHs |].
        intros p Hlast Hne. unfold gate_open in G.
        rewrite (IHl Lt50 (sample_of e) p Hne Hlast).
        unfold sample_of. simpl. rewrite Hsam. exact G.
      * intros _ s p _ Hlast. rewrite last_last in Hlast. subst p.
        simpl. rewrite Hsam, Hpos. reflexivity.
    + split; [exact IHs |]. intros Hlt. lia.
  - split; [exact IHs |]. exact IHl.
  - split; [exact I |]. intros _ s p Hne. contradiction Hne. reflexivity.
Qed.

(** X11. When each pointer event is handled within one tick of the clock,
    every sample in the buffer was taken more than 100 ms after the sample
    before it, in every reachable state. *)
Theorem buffer_samples_spaced (st : mouse_state) (Hreach : steadily_reachable st) :
  spaced (mouseTrajectory st).
Proof. apply steady_invariant. exact Hreach. Qed.

Lemma buffer_samples_spaced_witness :
  spaced [sample_of first_move; sample_of later_move].
Proof.
  apply (buffer_samples_spaced
           (on_mousemove (on_mousemove initial_mouse_state first_move) later_move)).
  repeat constructor.
Defined.

Lemma vertical_line_not_straight_witness :
  is_straight_line
    (_analyzeMouseTrajectory
       (map (fun i => {| px := 5; py := of_nat i;
                         pt := 1700000000000 + 100 * of_nat i |}%float) (seq 0 12)))
  = false.
Proof.
  apply vertical_line_not_straight.
  repeat constructor.
Defined.

(** ** The session fields *)

Import SessionVault VaultExamples VaultInit.



Lemma coherent_set_lock (v : vault) (b : bool) : coherent v -> coherent (set_lock v b).
Proof. intros H. exact H. Qed.





(** X13. The check of the response envelope accepts it, with key [k] and
    token [t], exactly when its [code] is the number 0 and the [key] and
    [token] of its [data] are the strings [k] and [t]; nothing is required of
    their length, so empty strings pass. *)
Theorem envelope_check (responseData : value) (k t : string) :
  (session_of responseData = Some (k, t)
   <-> (exists code, get responseData "code" = Num code /\ (code =? 0)%float = true)
       /\ get (get responseData "data") "key" = Str k
       /\ get (get responseData "data") "token" = Str t)
  /\ session_of (Obj [("code", Num 0); ("data", Obj [("key", Str ""); ("token", Str "")])])
     = Some ("", "")
  /\ session_of (Obj [("code", Str "0"); ("data", Obj [("key", Str k); ("token", Str t)])])
     = None.
Proof.
  split; [| split; reflexivity].
  unfold session_of. split.
  - intros H.
    destruct responseData as [| | b | x | s | items | props]; try discriminate H;
      (destruct (get _ "code") as [| | b' | code | s' | items' | props'] eqn:C;
       try discriminate H;
       destruct (code =? 0)%float eqn:Z; try discriminate H;
       destruct (truthy (get _ "data")); try discriminate H;
       destruct (get (get _ "data") "key") as [| | ? | ? | key | ? | ?];
       try discriminate H;
       destruct (get (get _ "data") "token") as [| | ? | ? | token | ? | ?];
       try discriminate H;
       injection H as <- <-;
       split; [exists code; split; [reflexivity | exact Z] | split; reflexivity]).
  - intros [[code [C Z]] [K T]].
    assert (Tr : truthy (get responseData "data") = true).
    { destruct (get responseData "data") as [| | b | x | s | items | props];
        try discriminate K; reflexivity. }
    destruct responseData as [| | b | x | s | items | props]; try discriminate C;
      rewrite C, Z, Tr, K, T; reflexivity.
Qed.

(** ** Gathering *)

Import CoreEngine Gather Engine DataLoom.

Lemma collect_unknown (b : browser) (acc : mouse_state * collected) (key : string) :
  known_collector key = false -> collect b acc key = acc.
Proof.
  unfold known_collector, includes, collect. simpl. destruct acc as [st d].
  rewrite !orb_false_iff. intros (-> & -> & -> & -> & -> & -> & -> & -> & _).
  reflexivity.
Qed.

Lemma collect_mouse (b : browser) (acc : mouse_state * collected) (key : string) :
  lastMousePosition (fst (collect b acc key)) = lastMousePosition (fst acc)
  /\ mouseTrajectory (fst (collect b acc key))
     = if String.eqb key "mouse_trajectory" then [] else mouseTrajectory (fst acc).
Proof.
  unfold collect. destruct acc as [st d].
  destruct (String.eqb_spec key "mouse_trajectory") as [-> | N]; [split; reflexivity |].
  repeat match goal with
         | |- context [String.eqb key ?s] => destruct (String.eqb key s)
         end; split; reflexivity.
Qed.

Lemma gather_from (b : browser) (cs : list string) :
  forall acc,
    lastMousePosition (fst (fold_left (collect b) cs acc)) = lastMousePosition (fst acc)
    /\ mouseTrajectory (fst (fold_left (collect b) cs acc))
       = (if includes cs "mouse_trajectory" then [] else mouseTrajectory (fst acc))
    /\ fold_left (collect b) (filter known_collector cs) acc = fold_left (collect b) cs acc.
Proof.
  induction cs as [| key rest IH]; intros acc; [repeat split |].
  cbn [fold_left filter].
  destruct (IH (collect b acc key)) as (L & T & F).
  destruct (collect_mouse b acc key) as (L1 & T1).
  split; [rewrite L; exact L1 |]. split.
  - rewrite T, T1.
    change (includes (key :: rest) "mouse_trajectory")
      with (String.eqb "mouse_trajectory" key || includes rest "mouse_trajectory").
    rewrite (String.eqb_sym "mouse_trajectory" key).
    destruct (String.eqb key "mouse_trajectory");
      destruct (includes rest "mouse_trajectory"); reflexivity.
  - destruct (known_collector key) eqn:K; cbn [fold_left].
    + apply (proj2 (proj2 (IH (collect b acc key)))).
    + rewrite (collect_unknown b acc key K). apply (proj2 (proj2 (IH acc))).
Qed.

(** X14. Given names that [collectorMap] does not inherit from
    [Object.prototype], [gather] skips those that are not entries of
    [collectorMap], never touches [lastMousePosition], and leaves the
    trajectory buffer empty exactly when [mouse_trajectory] is among the
    names it was given; a name given twice runs its collector twice, so a
    second trajectory collector finds the buffer already drained and its
    empty result is the one kept. *)
Theorem gather_effects (b : browser) (collectorsToRun : list string) (st : mouse_state)
        (Hplain : forallb plain collectorsToRun = true) :
  gather b (filter known_collector collectorsToRun) st = gather b collectorsToRun st
  /\ lastMousePosition (fst (gather b collectorsToRun st)) = lastMousePosition st
  /\ mouseTrajectory (fst (gather b collectorsToRun st))
     = (if includes collectorsToRun "mouse_trajectory" then [] else mouseTrajectory st)
  /\ c_mouse_trajectory (snd (gather b ["mouse_trajectory"; "mouse_trajectory"] st))
     = Some {| points := []; analysis := _analyzeMouseTrajectory [] |}.
Proof.
  unfold gather.
  destruct (gather_from b collectorsToRun (st, empty_bag)) as (L & T & F).
  repeat split; assumption.
Qed.

Lemma gather_effects_witness :
  gather healthy_browser (filter known_collector ["language"; "mouse_trajectory"; "plugins"])
         (mouse_run two_moves_and_a_click)
  = gather healthy_browser ["language"; "mouse_trajectory"; "plugins"] (mouse_run two_moves_and_a_click).
Proof.
  apply gather_effects. reflexivity.
Defined.



(** ** The engine *)



(** ** The anomaly scanner *)

Import AnomalyScan Performance CoverageExamples.

Lemma lower_upper_ascii (ch : ascii) :
  lower_ascii (upper_ascii ch) = lower_ascii ch
  /\ Ascii.eqb (upper_ascii ch) (ascii_of_nat 10) = Ascii.eqb ch (ascii_of_nat 10).
Proof.
  destruct ch as [[] [] [] [] [] [] [] []]; vm_compute; split; reflexivity.
Qed.

Lemma lower_upper (text : string) :
  toLowerCase (toUpperCase text) = toLowerCase text
  /\ lines (toUpperCase text) = lines text.
Proof.
  induction text as [| ch r [IH1 IH2]]; [split; reflexivity |].
  simpl. destruct (lower_upper_ascii ch) as [-> ->]. rewrite IH1, IH2.
  split; reflexivity.
Qed.

(** X18. The stack check ignores letter case: a stack and the same stack in
    upper case get the same verdict.  The verdict is [false] exactly when
    the stack is a non-empty string of at least three lines in which none of
    [puppeteer], [webdriver] and [phantom] occurs in any letter case; a
    keyword is reported whatever the number of lines. *)
Theorem stack_check (text : string) :
  _detectStackAnomaly (Some (toUpperCase text)) = _detectStackAnomaly (Some text)
  /\ (_detectStackAnomaly (Some text) = None
      <-> text <> ""
          /\ contains "puppeteer" (toLowerCase text) = false
          /\ contains "webdriver" (toLowerCase text) = false
          /\ contains "phantom" (toLowerCase text) = false
          /\ 3 <= lines text)
  /\ (text <> "" ->
      contains "puppeteer" (toLowerCase text) = true
      \/ contains "webdriver" (toLowerCase text) = true
      \/ contains "phantom" (toLowerCase text) = true ->
      _detectStackAnomaly (Some text) = Some contains_keyword).
Proof.
  unfold _detectStackAnomaly.
  destruct (lower_upper text) as [-> ->].
  split; [| split].
  - destruct text; reflexivity.
  - destruct (String.eqb_spec text "") as [-> | Hne].
    + split; [discriminate | intros [H _]; contradiction H; reflexivity].
    + destruct (contains "puppeteer" (toLowerCase text)),
               (contains "webdriver" (toLowerCase text)),
               (contains "phantom" (toLowerCase text)); simpl;
        try (split; [discriminate | intros (_ & A & B & C & _); discriminate]).
      destruct (Nat.ltb_spec (lines text) 3) as [Lt | Ge].
      * split; [discriminate | intros (_ & _ & _ & _ & L); lia].
      * split; [intros _; repeat split; assumption | reflexivity].
  - intros Hne H.
    destruct (String.eqb_spec text "") as [-> | _]; [contradiction Hne; reflexivity |].
    destruct H as [-> | [-> | ->]]; rewrite ?orb_true_r; reflexivity.
Qed.

(** X19. The scan reports [permissions_denied] exactly when the permissions
    API is there, querying it does not throw, it reports the state [denied]
    and [Notification.permission] is [denied] as well; when the probe returns
    one of its strings the flag stays [false] and the string is kept under
    [permissions_error], which the scorer does not read. *)
Theorem permission_flag
        (driver tampered headless hooked : bool) (stack : option string)
        (has_api query_throws : bool) (state : string) (notification : option string) :
  let scan := run driver tampered headless hooked stack
                  (_detectPermissions has_api query_throws state notification) in
  (permissions_denied scan = true
   <-> has_api = true /\ query_throws = false /\ state = "denied"
       /\ notification = Some "denied")
  /\ (permissions_error scan
      = if negb has_api then Some "no_permissions_api"
        else if query_throws then Some "permissions_error" else None)
  /\ (forall d w text,
         c_anomaly_scan d = Some scan ->
         risk_sum d w
         = risk_sum
             {| c_platform := c_platform d; c_screen := c_screen d;
                c_canvas := c_canvas d; c_webgl := c_webgl d; c_audio := c_audio d;
                c_performance := c_performance d;
                c_mouse_trajectory := c_mouse_trajectory d;
                c_anomaly_scan :=
                  Some {| webdriver := webdriver scan;
                          webdriver_tampered := webdriver_tampered scan;
                          headless_chrome := headless_chrome scan;
                          tostring_tampered := tostring_tampered scan;
                          stack_anomaly := stack_anomaly scan;
                          permissions_denied := permissions_denied scan;
                          permissions_error := text |} |} w).
Proof.
  intros scan. subst scan. unfold run, _detectPermissions.
  split; [| split].
  - destruct has_api, query_throws; simpl;
      try (split; [discriminate | intros (A & B & _); discriminate]).
    destruct (String.eqb_spec state "denied") as [-> | Hs]; simpl.
    + destruct notification as [permission |]; simpl.
      * destruct (String.eqb_spec permission "denied") as [-> | Hp].
        -- split; [intros _; repeat split | reflexivity].
        -- split; [discriminate | intros (_ & _ & _ & [= E]); contradiction].
      * split; [discriminate | intros (_ & _ & _ & E); discriminate].
    + split; [discriminate | intros (_ & _ & E & _); contradiction].
  - destruct has_api, query_throws; reflexivity.
  - intros d w text H. destruct d as [p s cv g a f m sc]. simpl in H. subst sc.
    reflexivity.
Qed.

(** X20. The cache bonus of the scorer applies exactly when the performance
    collector read a first navigation entry of type [navigate] with a transfer
    size of 0; a browser without navigation entries, for which the collector
    falls back to the legacy timing, never gets it. *)
Theorem cache_bonus_needs_navigation_entry (api : performance_api) (d : collected)
        (Hperf : c_performance d = Some (_getPerformanceInfo api)) :
  (from_cache d = true
   <-> reading_throws api = false /\ has_entries_api api = true
       /\ exists nav rest,
            navigation_entries api = nav :: rest
            /\ (entry_transferSize nav =? 0)%float = true
            /\ entry_type nav = "navigate")
  /\ (navigation_entries api = [] -> from_cache d = false).
Proof.
  unfold from_cache. rewrite Hperf. unfold _getPerformanceInfo.
  destruct (reading_throws api), (has_entries_api api); simpl;
    try (split; [split; [discriminate | intros (A & B & _); discriminate] | reflexivity]).
  destruct (navigation_entries api) as [| nav rest].
  - split; [| intros _; destruct (timing api) as [[a b] |]; reflexivity].
    split; [| intros (_ & _ & n & r & E & _); discriminate E].
    destruct (timing api) as [[a b] |]; [| discriminate].
    simpl. intros H. discriminate H.
  - split; [| discriminate]. simpl. split.
    + intros H. apply andb_prop in H as [T N]. repeat split.
      exists nav, rest. repeat split; [exact T |].
      apply String.eqb_eq. exact N.
    + intros (_ & _ & n & r & [= <- <-] & T & N). rewrite T, N. reflexivity.
Qed.

Lemma cache_bonus_needs_navigation_entry_witness : from_cache legacy_bag = false.
Proof.
  exact (proj2 (cache_bonus_needs_navigation_entry legacy_api legacy_bag eq_refl) eq_refl).
Defined.

(** ** The method *)

Lemma upper_ascii_idempotent (ch : ascii) : upper_ascii (upper_ascii ch) = upper_ascii ch.
Proof. destruct ch as [[] [] [] [] [] [] [] []]; vm_compute; reflexivity. Qed.

Lemma toUpperCase_idempotent (s : string) : toUpperCase (toUpperCase s) = toUpperCase s.
Proof.
  induction s as [| ch r IH]; [reflexivity |].
  simpl. rewrite upper_ascii_idempotent, IH. reflexivity.
Qed.

(** X21. Only the upper-cased method enters a signing attempt: two methods
    that differ in letter case alone give the same outcome, the same as the
    upper-cased method itself. *)
Theorem method_case_irrelevant
        (digits : float -> string)
        (aes : string -> string -> string -> string)
        (hmac : string -> string -> string)
        (env : attempt) (d : collected) (w : weight_map)
        (realUrl : string) (params : value) (method method' : string)
        (Hsame : toUpperCase method = toUpperCase method') :
  assessAndSign digits aes hmac env d w realUrl params method
  = assessAndSign digits aes hmac env d w realUrl params method'
  /\ assessAndSign digits aes hmac env d w realUrl params (toUpperCase method)
     = assessAndSign digits aes hmac env d w realUrl params method.
Proof.
  unfold assessAndSign. rewrite toUpperCase_idempotent, Hsame. split; reflexivity.
Qed.

Lemma method_case_irrelevant_witness :
  assessAndSign no_digits aes_tag hmac_tag ping_attempt ping_bag [] "/api/x" params_ba "post"
  = assessAndSign no_digits aes_tag hmac_tag ping_attempt ping_bag [] "/api/x" params_ba "PoSt".
Proof.
  apply method_case_irrelevant. reflexivity.
Defined.

(** ** The click counter *)

Import Presorted.

(** X22. After any sequence of pointer events, clicks and runs of the
    trajectory probe, the click counter is its initial value incremented
    once per click: pointer moves and the probe leave it alone, and nothing
    resets it. *)
Theorem click_counter_counts_clicks (st : mouse_state) (evs : list mouse_event) :
  c (lastMousePosition (fold_left mouse_step evs st))
  = Nat.iter (clicks evs) (fun n => (n + 1)%float) (c (lastMousePosition st)).
Proof.
  revert st. induction evs as [| ev rest IH]; intros st; [reflexivity |].
  simpl fold_left. rewrite IH.
  destruct ev as [e | |]; simpl clicks.
  - unfold mouse_step, on_mousemove.
    destruct (gate_open st e); [| reflexivity].
    destruct (List.length (mouseTrajectory st) <? 50)%nat; reflexivity.
  - rewrite Nat.iter_succ_r. reflexivity.
  - reflexivity.
Qed.

(** ** Parameters listed in ascending order *)

Lemma ltb_leb (a b : string) : String.ltb a b = true -> String.leb a b = true /\ a <> b.
Proof.
  unfold String.ltb, String.leb.
  destruct (String.compare a b) eqn:C; try discriminate.
  intros _. split; [reflexivity |].
  intros ->.
  assert (E : String.compare b b = Eq).
  { clear. induction b as [| ch r IH]; [reflexivity |].
    simpl. unfold Ascii.compare. rewrite N.compare_refl. exact IH. }
  rewrite E in C. discriminate C.
Qed.

Lemma ascending_head (a : string) (rest : list string) :
  ascending (a :: rest) = true -> Forall (fun b => String.leb a b = true /\ a <> b) rest.
Proof.
  revert a. induction rest as [| b rest IH]; intros a H; [constructor |].
  simpl in H. apply andb_prop in H as [Hab Hrest].
  destruct (ltb_leb a b Hab) as [Lab Nab].
  constructor; [split; assumption |].
  specialize (IH b Hrest).
  eapply Forall_impl; [| exact IH].
  intros x [Lbx Nbx]. split.
  - eapply string_leb_trans; eauto.
  - intros ->. apply Nab. apply String.leb_antisym; assumption.
Qed.

Lemma ascending_tail (a : string) (rest : list string) :
  ascending (a :: rest) = true -> ascending rest = true.
Proof.
  destruct rest as [| b rest]; [reflexivity |].
  simpl. intros H. apply andb_prop in H as [_ H]. exact H.
Qed.

Lemma sort_ascending (names : list string) : ascending names = true -> sort names = names.
Proof.
  unfold sort. induction names as [| a rest IH]; intros H; [reflexivity |].
  simpl. rewrite (IH (ascending_tail a rest H)).
  destruct rest as [| b rest']; [reflexivity |].
  simpl in H. apply andb_prop in H as [Hab _].
  simpl. rewrite (proj1 (ltb_leb a b Hab)). reflexivity.
Qed.

Lemma defined_stringifies (digits : float -> string) (v : value) :
  is_undefined v = false -> exists s, JSON_stringify digits v = Some s.
Proof.
  destruct v; try discriminate; intros _; eexists; reflexivity.
Qed.

(** X23. For parameters in which every object, at any depth, lists its
    properties in strictly ascending order of their names and nothing is
    [undefined], [JSON.stringify], which the signer uses for request bodies,
    gives the same text as [_canonicalJsonStringify]. *)
Theorem presorted_params_are_canonical (digits : float -> string) :
  forall v : value,
    presorted v = true -> JSON_stringify digits v = _canonicalJsonStringify digits v.
Proof.
  fix IH 1. intros v H.
  destruct v as [| | b | x | s | items | props]; try reflexivity.
  - rewrite canonical_array. simpl in H.
    assert (M : map (fun e => match JSON_stringify digits e with
                              | Some s => s
                              | None => "null"
                              end) items
                = map (fun item => joined (_canonicalJsonStringify digits item)) items).
    { induction items as [| e rest IHitems]; [reflexivity |].
      simpl in H. apply andb_prop in H as [He Hrest]. apply andb_prop in He as [Hd Hp].
      cbn [map]. rewrite (IHitems Hrest). f_equal.
      rewrite <- (IH e Hp).
      apply negb_true_iff in Hd.
      destruct (defined_stringifies digits e Hd) as [s ->]. reflexivity. }
    cbn [JSON_stringify]. fold (JSON_stringify digits). rewrite M. reflexivity.
  - rewrite canonical_object. unfold object_text.
    simpl in H. apply andb_prop in H as [Hasc Hall].
    rewrite (sort_ascending _ Hasc).
    assert (G : forall ps,
               ascending (map fst ps) = true ->
               (fix all (ps : list (string * value)) : bool :=
                  match ps with
                  | [] => true
                  | (_, e) :: rest => negb (is_undefined e) && presorted e && all rest
                  end) ps = true ->
               forall extra,
                 (forall k, In k (map fst ps) -> lookup_rendered k (extra ++ rendered_props digits ps)%list
                                                 = lookup_rendered k (rendered_props digits ps)) ->
               (fix members (ps : list (string * value)) : list string :=
                  match ps with
                  | [] => []
                  | (k, e) :: rest =>
                      match JSON_stringify digits e with
                      | Some s => (json_quote k ++ ":" ++ s) :: members rest
                      | None => members rest
                      end
                  end) ps
               = map (fun key => json_quote key ++ ":"
                                 ++ lookup_rendered key (extra ++ rendered_props digits ps)%list)
                     (map fst ps)).
    { induction ps as [| [k e] rest IHps]; intros Ha Hb extra Hx; [reflexivity |].
      apply andb_prop in Hb as [He Hrest]. apply andb_prop in He as [Hd Hp].
      apply negb_true_iff in Hd.
      destruct (defined_stringifies digits e Hd) as [s Hs].
      rewrite Hs. cbn [map fst].
      f_equal.
      - rewrite (Hx k (or_introl eq_refl)). simpl.
        rewrite String.eqb_refl, <- (IH e Hp), Hs. reflexivity.
      - pose proof (ascending_head k (map fst rest) Ha) as Hh.
        rewrite (IHps (ascending_tail _ _ Ha) Hrest
                      (extra ++ [(k, template (_canonicalJsonStringify digits e))])%list).
        + apply map_ext_in. intros key Hkey.
          rewrite <- app_assoc. reflexivity.
        + intros key Hkey. rewrite <- app_assoc.
          change ([(k, template (_canonicalJsonStringify digits e))]
                  ++ rendered_props digits rest)%list
            with (rendered_props digits ((k, e) :: rest)).
          rewrite (Hx key (or_intror Hkey)).
          simpl.
          rewrite Forall_forall in Hh. destruct (Hh key Hkey) as [_ Hne].
          destruct (String.eqb_spec key k) as [-> | _]; [contradiction Hne; reflexivity |].
          reflexivity. }
    cbn [JSON_stringify]. fold (JSON_stringify digits).
    rewrite (G props Hasc Hall []); [reflexivity |].
    intros k _. reflexivity.
Qed.

Lemma presorted_params_are_canonical_witness :
  JSON_stringify no_digits nested_params_shuffled
  = _canonicalJsonStringify no_digits nested_params_shuffled.
Proof.
  apply presorted_params_are_canonical. reflexivity.
Defined.
